(** * MayaUsb: the AOAP streaming device (MayaUsbStreamer/MayaUsbDevice.cpp)

    A shallow embedding of the USB protocol engine: the control-transfer
    sequence that switches a device to accessory mode, endpoint discovery,
    the handshake worker, the read loop, the frame submission entry point
    and the send loop.  libusb, TurboJPEG and the image utilities are
    external: their answers are inputs of the model. *)

From Stdlib Require Import ZArith List Lia Bool String Ascii.
Import ListNotations.
Local Open Scope Z_scope.

(** ** Machine integers *)

Definition wrap (bits : Z) (x : Z) : Z := x mod 2 ^ bits.

(** Two's complement reading of a [bits]-wide pattern. *)
Definition to_signed (bits : Z) (x : Z) : Z :=
  let u := wrap bits x in
  if u <? 2 ^ (bits - 1) then u else u - 2 ^ bits.

Definition uint8 (x : Z) : Z := wrap 8 x.
Definition uint16 (x : Z) : Z := wrap 16 x.
Definition uint32 (x : Z) : Z := wrap 32 x.
Definition int16 (x : Z) : Z := to_signed 16 x.
Definition int32 (x : Z) : Z := to_signed 32 x.
(** [size_t] of the build the plug-in targets (64-bit Maya). *)
Definition size_t (x : Z) : Z := wrap 64 x.

(** ** libusb constants used by the device *)

Definition LIBUSB_ENDPOINT_IN : Z := 128.
Definition LIBUSB_ENDPOINT_OUT : Z := 0.
Definition LIBUSB_REQUEST_TYPE_VENDOR : Z := 64.
Definition LIBUSB_ERROR_TIMEOUT : Z := -7.
Definition LIBUSB_TRANSFER_TYPE_MASK : Z := 3.
Definition LIBUSB_TRANSFER_TYPE_BULK : Z := 2.

(** [MayaUsbDevice::BUFFER_LEN] *)
Definition BUFFER_LEN : Z := 16384.

(** A byte buffer: one [Z] in [0, 256) per [unsigned char]. *)
Definition bytes := list Z.

Definition string_bytes (s : string) : bytes :=
  map (fun c => Z.of_nat (nat_of_ascii c)) (list_ascii_of_string s).

(** ** Exceptions

    The code throws [std::runtime_error] both by value ([throw e]) and by
    pointer ([throw new e]); either one unwinds the caller. *)

Inductive thrown : Type :=
| ThrowValue (what : string)
| ThrowPointer (what : string).

Definition what_of (e : thrown) : string :=
  match e with ThrowValue w | ThrowPointer w => w end.

(** ** Control transfers *)

Module Control.

(** What the host hands to [libusb_control_transfer].  [data] is the
    initialised part of the buffer the pointer designates and [capacity]
    the size of that buffer; [wLength] is what the device is told to
    take from it. *)
Record request : Type := mkRequest {
  bmRequestType : Z;
  bRequest : Z;
  wValue : Z;
  wIndex : Z;
  data : bytes;
  capacity : Z;
  wLength : Z
}.

(** What the device answers: the return value of the call, and for an
    IN transfer the two bytes it put in the buffer, read as one 16-bit
    pattern in host order. *)
Record reply : Type := mkReply {
  status : Z;
  word : Z
}.

(** The device answers the n-th control transfer of a run with
    [dev n]. *)
Definition device := nat -> reply.

(** Requests issued so far, oldest first. *)
Definition log := list request.

(** State (the log) and exceptions; the log survives a throw. *)
Definition M (A : Type) : Type := log -> log * (A + thrown).

Definition ret {A} (a : A) : M A := fun l => (l, inl a).
Definition throw {A} (e : thrown) : M A := fun l => (l, inr e).
Definition bind {A B} (m : M A) (k : A -> M B) : M B :=
  fun l =>
    match m l with
    | (l', inl a) => k a l'
    | (l', inr e) => (l', inr e)
    end.

Definition libusb_control_transfer (dev : device) (r : request) : M reply :=
  fun l => ((l ++ [r])%list, inl (dev (List.length l))).

End Control.

Declare Scope usb_scope.
Delimit Scope usb_scope with usb.
Notation "x <- m ;; k" := (Control.bind m (fun x => k))
  (at level 61, m at next level, right associativity) : usb_scope.
Notation "m ;;; k" := (Control.bind m (fun _ => k))
  (at level 61, right associativity) : usb_scope.

Section ControlProtocol.
Import Control.
Variable dev : device.
Local Open Scope usb_scope.

Definition getControlInt16 (request : Z) : M Z :=
  r <- libusb_control_transfer dev
         {| bmRequestType := Z.lor LIBUSB_ENDPOINT_IN LIBUSB_REQUEST_TYPE_VENDOR;
            bRequest := request; wValue := 0; wIndex := 0;
            data := []; capacity := 2; wLength := 2 |} ;;
  if status r <? 0 then throw (ThrowValue "Could not get request")
  else ret (int16 (word r)).

Definition sendControl (request : Z) : M unit :=
  r <- libusb_control_transfer dev
         {| bmRequestType := Z.lor LIBUSB_ENDPOINT_OUT LIBUSB_REQUEST_TYPE_VENDOR;
            bRequest := request; wValue := 0; wIndex := 0;
            data := []; capacity := 0; wLength := 0 |} ;;
  if status r <? 0 then throw (ThrowPointer "Could not send request")
  else ret tt.

(** [str.copy(temp, sizeof(temp))] fills [min(256, size)] bytes of the
    256-byte [temp]; the transfer is then given [str.size()], narrowed
    to the 16-bit [wLength] parameter. *)
Definition sendControlString (request index : Z) (str : string) : M unit :=
  let temp := firstn 256 (string_bytes str) in
  r <- libusb_control_transfer dev
         {| bmRequestType := Z.lor LIBUSB_ENDPOINT_OUT LIBUSB_REQUEST_TYPE_VENDOR;
            bRequest := request; wValue := 0; wIndex := index;
            data := temp; capacity := 256;
            wLength := uint16 (Z.of_nat (String.length str)) |} ;;
  if status r <? 0 then throw (ThrowPointer "Could not send request")
  else ret tt.

Definition convertToAccessory : M unit :=
  protocolVersion <- getControlInt16 51 ;;
  (if protocolVersion <? 1
   then throw (ThrowPointer "AOA protocol version < 1")
   else ret tt) ;;;
  sendControlString 52 0 "SiriusCybernetics" ;;;
  sendControlString 52 1 "MayaUsb" ;;;
  sendControlString 52 2 "Maya USB streaming" ;;;
  sendControlString 52 3 "0.42" ;;;
  sendControlString 52 4 "https://sdao.me" ;;;
  sendControlString 52 5 "42" ;;;
  sendControl 53.

End ControlProtocol.

(** The error classes of the protocol, as the exceptions that carry
    them. *)
Definition ProtocolUnsupported : thrown := ThrowPointer "AOA protocol version < 1".
Definition is_ControlTransferError (e : thrown) : Prop :=
  e = ThrowValue "Could not get request" \/ e = ThrowPointer "Could not send request".

(** ** Device identity and the object's state *)

Record MayaUsbDeviceId : Type := mkId { vid : Z; pid : Z }.

Definition getAoapIds : list MayaUsbDeviceId :=
  [ mkId 0x18D1 0x2D00 (* accessory *) ; mkId 0x18D1 0x2D01 (* accessory + ADB *) ].

(** The members of [MayaUsbDevice] that the operations below read or
    write.  The handle and the two worker pointers are left out: the
    workers are modelled by the runs they produce. *)
Record MayaUsbDevice : Type := mkDevice {
  _id : MayaUsbDeviceId;
  _manufacturer : string;
  _product : string;
  _inEndpoint : Z;
  _outEndpoint : Z;
  _handshake : bool;
  _sendReady : bool;
  _rgbImageBuffer : bytes;
  _jpegBufferWidth : Z;
  _jpegBufferHeight : Z;
  _jpegBuffer : bytes;
  _jpegBufferSize : Z
}.

Definition set_id v d := mkDevice v (_manufacturer d) (_product d) (_inEndpoint d)
  (_outEndpoint d) (_handshake d) (_sendReady d) (_rgbImageBuffer d)
  (_jpegBufferWidth d) (_jpegBufferHeight d) (_jpegBuffer d) (_jpegBufferSize d).
Definition set_strings m p d := mkDevice (_id d) m p (_inEndpoint d)
  (_outEndpoint d) (_handshake d) (_sendReady d) (_rgbImageBuffer d)
  (_jpegBufferWidth d) (_jpegBufferHeight d) (_jpegBuffer d) (_jpegBufferSize d).
Definition set_inEndpoint v d := mkDevice (_id d) (_manufacturer d) (_product d) v
  (_outEndpoint d) (_handshake d) (_sendReady d) (_rgbImageBuffer d)
  (_jpegBufferWidth d) (_jpegBufferHeight d) (_jpegBuffer d) (_jpegBufferSize d).
Definition set_outEndpoint v d := mkDevice (_id d) (_manufacturer d) (_product d)
  (_inEndpoint d) v (_handshake d) (_sendReady d) (_rgbImageBuffer d)
  (_jpegBufferWidth d) (_jpegBufferHeight d) (_jpegBuffer d) (_jpegBufferSize d).
Definition set_handshake v d := mkDevice (_id d) (_manufacturer d) (_product d)
  (_inEndpoint d) (_outEndpoint d) v (_sendReady d) (_rgbImageBuffer d)
  (_jpegBufferWidth d) (_jpegBufferHeight d) (_jpegBuffer d) (_jpegBufferSize d).
Definition set_sendReady v d := mkDevice (_id d) (_manufacturer d) (_product d)
  (_inEndpoint d) (_outEndpoint d) (_handshake d) v (_rgbImageBuffer d)
  (_jpegBufferWidth d) (_jpegBufferHeight d) (_jpegBuffer d) (_jpegBufferSize d).
Definition set_staged rgb w h d := mkDevice (_id d) (_manufacturer d) (_product d)
  (_inEndpoint d) (_outEndpoint d) (_handshake d) (_sendReady d) rgb
  w h (_jpegBuffer d) (_jpegBufferSize d).
Definition set_jpeg buf size d := mkDevice (_id d) (_manufacturer d) (_product d)
  (_inEndpoint d) (_outEndpoint d) (_handshake d) (_sendReady d) (_rgbImageBuffer d)
  (_jpegBufferWidth d) (_jpegBufferHeight d) buf size.

(** ** Construction and endpoint discovery *)

Record libusb_endpoint_descriptor : Type := mkEndpoint {
  bEndpointAddress : Z;
  bmAttributes : Z
}.

(** What libusb reports about the attached hardware while the
    constructor runs. *)
Record Bus : Type := mkBus {
  opens : MayaUsbDeviceId -> bool;         (* libusb_open_device_with_vid_pid *)
  device_descriptor_status : Z;
  manufacturer_status : Z;
  manufacturerString : string;
  product_status : Z;
  productString : string;
  config_descriptor_status : Z;
  endpoints : list libusb_endpoint_descriptor;  (* interface[0].altsetting[0] *)
  claim_status : Z
}.

(** The body of the endpoint loop, for one descriptor. *)
Definition record_endpoint (d : MayaUsbDevice) (endpoint : libusb_endpoint_descriptor)
  : MayaUsbDevice :=
  let in_ := Z.land (bEndpointAddress endpoint) 128 =? LIBUSB_ENDPOINT_IN in
  let out := Z.land (bEndpointAddress endpoint) 128 =? LIBUSB_ENDPOINT_OUT in
  if in_ then set_inEndpoint (bEndpointAddress endpoint) d
  else if out then set_outEndpoint (bEndpointAddress endpoint) d
  else d.

(** [for (int i = 0; i < interfaceDesc.bNumEndpoints; ++i)] *)
Definition enumerate_endpoints (eps : list libusb_endpoint_descriptor)
  (d : MayaUsbDevice) : MayaUsbDevice :=
  fold_left record_endpoint eps d.

(** The first candidate that opens. *)
Fixpoint open_first (bus : Bus) (ids : list MayaUsbDeviceId) : option MayaUsbDeviceId :=
  match ids with
  | [] => None
  | id :: rest => if opens bus id then Some id else open_first bus rest
  end.

(** The constructor.  [raw] is the object's storage as the constructor
    finds it: the member initialiser list sets [_handshake], [_sendReady]
    and [_jpegBuffer] (and allocates [_rgbImageBuffer] without filling
    it); every other member keeps what [raw] holds until the body assigns
    it. *)
Definition construct (bus : Bus) (raw : MayaUsbDevice) (ids : list MayaUsbDeviceId)
  : MayaUsbDevice + thrown :=
  let d := set_jpeg [] (_jpegBufferSize raw) (set_sendReady false (set_handshake false raw)) in
  match open_first bus ids with
  | None => inr (ThrowValue "Could not create device with given VIDs/PIDs")
  | Some id =>
    let d := set_id id d in
    if device_descriptor_status bus <? 0
    then inr (ThrowValue "Could not get device descriptor")
    else if manufacturer_status bus <? 0
    then inr (ThrowValue "Could not get manufacturer string")
    else if product_status bus <? 0
    then inr (ThrowValue "Could not get product string")
    else
      let d := set_strings (manufacturerString bus) (productString bus) d in
      if config_descriptor_status bus <? 0
      then inr (ThrowValue "Could not get configuration descriptor")
      else
        let d := enumerate_endpoints (endpoints bus) d in
        if claim_status bus <? 0
        then inr (ThrowValue "Could not claim interface")
        else inl d
  end.

(** The specification's reading of endpoint discovery, for comparison:
    the address of the first endpoint of the given direction whose
    transfer type is bulk, zero when there is none. *)
Definition is_bulk (e : libusb_endpoint_descriptor) : bool :=
  Z.land (bmAttributes e) LIBUSB_TRANSFER_TYPE_MASK =? LIBUSB_TRANSFER_TYPE_BULK.
Definition has_direction (dir : Z) (e : libusb_endpoint_descriptor) : bool :=
  Z.land (bEndpointAddress e) 128 =? dir.
Definition spec_first_bulk_endpoint (dir : Z) (eps : list libusb_endpoint_descriptor) : Z :=
  match find (fun e => has_direction dir e && is_bulk e) eps with
  | Some e => bEndpointAddress e
  | None => 0
  end.

(** ** Byte order of the frame header *)

Inductive endianness : Type := LittleEndian | BigEndian.

Definition byte_of (v : Z) (n : Z) : Z := Z.land (Z.shiftr v (8 * n)) 255.

Definition bswap32 (v : Z) : Z :=
  Z.lor (Z.shiftl (byte_of v 0) 24)
    (Z.lor (Z.shiftl (byte_of v 1) 16)
       (Z.lor (Z.shiftl (byte_of v 2) 8) (byte_of v 3))).

(** Modelled from the spec: [EndianUtils::nativeToBig] (EndianUtils.h is
    not among the sources).  The spec has it convert a length field to the
    fixed wire byte order, big-endian: on a little-endian host the four
    bytes are swapped, on a big-endian host the value is left alone. *)
Definition nativeToBig (host : endianness) (v : Z) : Z :=
  match host with
  | LittleEndian => bswap32 v
  | BigEndian => v
  end.

(** The four bytes of a [uint32_t] object, in address order: what
    [reinterpret_cast<unsigned char*>(&header)] designates. *)
Definition object_bytes (host : endianness) (v : Z) : bytes :=
  match host with
  | LittleEndian => [byte_of v 0; byte_of v 1; byte_of v 2; byte_of v 3]
  | BigEndian => [byte_of v 3; byte_of v 2; byte_of v 1; byte_of v 0]
  end.

(** The receiving side of the framing, as the spec words it: decode a
    big-endian length from the first four bytes, then read exactly that
    many bytes. *)
Definition decode_be32 (b : bytes) : option Z :=
  match b with
  | b3 :: b2 :: b1 :: b0 :: _ => Some (b3 * 2 ^ 24 + b2 * 2 ^ 16 + b1 * 2 ^ 8 + b0)
  | _ => None
  end.

Definition decode_frame (wire : bytes) : option bytes :=
  match decode_be32 wire with
  | Some n =>
    let body := skipn 4 wire in
    if Z.of_nat (List.length body) <? n then None
    else Some (firstn (Z.to_nat n) body)
  | None => None
  end.

(** ** Bulk transfers *)

Module Bulk.

(** Outcome of one [libusb_bulk_transfer] on the IN endpoint: the
    return value and the bytes that arrived.  The call stores their
    count in [*transferred] and the bytes at the start of the caller's
    buffer. *)
Record result : Type := mkResult {
  status : Z;
  received : bytes
}.

Definition transferred (r : result) : Z := Z.of_nat (List.length (received r)).

Definition fill (buf : bytes) (r : result) : bytes :=
  (received r ++ skipn (List.length (received r)) buf)%list.

(** One [libusb_bulk_transfer] on the OUT endpoint: the buffer handed
    over and the count the call stored in [written]. *)
Record write : Type := mkWrite {
  buffer : bytes;
  sent : Z
}.

(** The bytes of a write that reached the wire. *)
Definition on_wire (w : write) : bytes := firstn (Z.to_nat (sent w)) (buffer w).

End Bulk.

(** ** Runs of a background worker

    A worker body runs on its own thread against an environment that is
    only known up to a horizon.  Its run is [Running] when the horizon is
    reached inside the loop, and [Exited] with the final state when the
    body returned: the value of the shared cancellation flag, the
    callback invocations in order, the OUT transfers in order and the
    device members. *)

Record finished (C : Type) : Type := mkFinished {
  cancel_flag : bool;
  calls : list C;
  wire : list Bulk.write;
  after : MayaUsbDevice
}.
Arguments mkFinished {C}.
Arguments cancel_flag {C}.
Arguments calls {C}.
Arguments wire {C}.
Arguments after {C}.

Inductive run (C : Type) : Type :=
| Running
| Exited (f : finished C).
Arguments Running {C}.
Arguments Exited {C}.

(** What a receiving worker meets: [ext_cancel k] tells whether another
    thread called [cancel()] before the worker's k-th [cancel->load()]
    (and after the previous one); [incoming] are the outcomes of its bulk
    reads, in order; [scratch] is the content of the buffer it allocates. *)
Record recv_env : Type := mkRecvEnv {
  ext_cancel : nat -> bool;
  incoming : list Bulk.result;
  scratch : bytes
}.

(** ** Handshake *)

(** [flushInputBuffer]: reads with a 10 ms timeout until a read does not
    return 0.  Gives the reads left over and the buffer; [None] when the
    horizon is reached while draining. *)
Fixpoint flush_reads (incoming : list Bulk.result) (buf : bytes)
  : option (list Bulk.result * bytes) :=
  match incoming with
  | [] => None
  | r :: rest =>
    if Bulk.status r =? 0 then flush_reads rest (Bulk.fill buf r)
    else Some (rest, Bulk.fill buf r)
  end.

Definition flushInputBuffer (d : MayaUsbDevice) (incoming : list Bulk.result)
  (buf : bytes) : option (list Bulk.result * bytes) :=
  if negb (_inEndpoint d =? 0) then flush_reads incoming buf
  else Some (incoming, buf).

(** The locals of the handshake worker when its wait loop is left. *)
Record waited : Type := mkWaited {
  cancelled : bool;
  status : Z;
  read : Z;
  inputBuffer : bytes
}.

(** [while (!(cancelled = cancel->load()) && status == LIBUSB_ERROR_TIMEOUT)]
    at its k-th evaluation of the condition, [flag] being the shared
    flag. *)
Fixpoint handshake_wait (cancel : nat -> bool) (k : nat) (flag : bool)
  (incoming : list Bulk.result) (status read : Z) (buf : bytes) : option waited :=
  let flag := flag || cancel k in
  if flag then Some (mkWaited true status read buf)
  else if negb (status =? LIBUSB_ERROR_TIMEOUT) then Some (mkWaited false status read buf)
  else
    match incoming with
    | [] => None
    | r :: rest =>
      handshake_wait cancel (S k) flag rest
        (Bulk.status r) (Bulk.transferred r) (Bulk.fill buf r)
    end.

(** [for (int i = 0; i < BUFFER_LEN; ++i)] with [n] iterations left; the
    loop is left at the first byte that differs. *)
Fixpoint handshake_scan (n : nat) (i : Z) (inputBuffer : bytes) : bool :=
  match n with
  | O => true
  | S n' =>
    let expected := uint8 i in
    if negb (nth (Z.to_nat i) inputBuffer 0 =? expected) then false
    else handshake_scan n' (i + 1) inputBuffer
  end.

Definition handshake_success (read : Z) (inputBuffer : bytes) : bool :=
  if read =? BUFFER_LEN
  then handshake_scan (Z.to_nat BUFFER_LEN) 0 inputBuffer
  else false.


(** The worker body after its wait loop. *)
Definition handshake_finish (w : waited) (d : MayaUsbDevice) : finished bool :=
  if cancelled w then mkFinished true [] [] d
  else
    let success := handshake_success (read w) (inputBuffer w) in
    mkFinished true [success] [] (set_handshake success d).

Definition handshake_worker (env : recv_env) (d : MayaUsbDevice) : run bool :=
  match flushInputBuffer d (incoming env) (scratch env) with
  | None => Running
  | Some (rest, inputBuffer) =>
    match handshake_wait (ext_cancel env) 0 false rest LIBUSB_ERROR_TIMEOUT 0 inputBuffer with
    | None => Running
    | Some w => Exited (handshake_finish w d)
    end
  end.

(** [waitHandshakeAsync]: the returned flag, and the run of the worker
    when one was started. *)
Definition waitHandshakeAsync (env : recv_env) (d : MayaUsbDevice)
  : bool * option (run bool) :=
  if _inEndpoint d =? 0 then (false, None)
  else if _handshake d then (false, None)
  else (true, Some (handshake_worker env d)).

(** ** Read loop *)

(** [while (!(cancelled = cancel->load()) && (status == 0 || status ==
    LIBUSB_ERROR_TIMEOUT))]; the callback receives the buffer after every
    read that returned 0.  Gives [cancelled] and the calls so far. *)
Fixpoint read_wait (cancel : nat -> bool) (k : nat) (flag : bool)
  (incoming : list Bulk.result) (status : Z) (buf : bytes)
  (calls : list (option bytes)) : option (bool * list (option bytes)) :=
  let flag := flag || cancel k in
  if flag then Some (true, calls)
  else if negb ((status =? 0) || (status =? LIBUSB_ERROR_TIMEOUT)) then Some (false, calls)
  else
    match incoming with
    | [] => None
    | r :: rest =>
      let buf := Bulk.fill buf r in
      read_wait cancel (S k) flag rest (Bulk.status r) buf
        (if Bulk.status r =? 0 then (calls ++ [Some buf])%list else calls)
    end.

Definition read_worker (env : recv_env) (d : MayaUsbDevice) : run (option bytes) :=
  match read_wait (ext_cancel env) 0 false (incoming env) LIBUSB_ERROR_TIMEOUT
          (scratch env) [] with
  | None => Running
  | Some (cancelled, calls) =>
    (* callback(nullptr) when the loop ended without cancellation *)
    let calls := if negb cancelled then (calls ++ [None])%list else calls in
    Exited (mkFinished true calls [] d)
  end.

Definition beginReadLoop (env : recv_env) (d : MayaUsbDevice)
  : bool * option (run (option bytes)) :=
  if _inEndpoint d =? 0 then (false, None)
  else if negb (_handshake d) then (false, None)
  else (true, Some (read_worker env d)).

(** ** Frame submission and the send loop *)

(** [MHWRender::MRasterFormat]: the two formats the device takes, and
    the rest of the enumeration by its number. *)
Inductive MRasterFormat : Type :=
| kR32G32B32A32_FLOAT
| kR8G8B8A8_UNORM
| kOtherFormat (n : Z).

(** The external collaborators of the send path: the host's pixel data,
    the checkerboard decomposition of ImageUtils.h (it fills the buffer
    it is given, of [RGB_IMAGE_SIZE] bytes), and TurboJPEG's compressor,
    which gives the JPEG bytes for a buffer, a width and a height. *)
Class Collaborators : Type := {
  PixelData : Type;
  RGB_IMAGE_SIZE : Z;
  decomposeCheckerboardStereoFloat : PixelData -> Z -> Z -> bytes -> Z -> bytes;
  decomposeCheckerboardStereoUchar : PixelData -> Z -> Z -> bytes -> Z -> bytes;
  tjCompress2 : bytes -> Z -> Z -> bytes
}.

Record MTextureDescription : Type := mkDesc {
  fWidth : Z;
  fHeight : Z;
  fFormat : MRasterFormat
}.

Section SendPath.
Context {ext : Collaborators}.
Variable host : endianness.

Definition supportsRasterFormat (format : MRasterFormat) : bool :=
  match format with
  | kR32G32B32A32_FLOAT | kR8G8B8A8_UNORM => true
  | kOtherFormat _ => false
  end.

(** The tail of the accepting path, once the buffer is filled. *)
Definition stage (rgb : bytes) (desc : MTextureDescription) (d : MayaUsbDevice)
  : MayaUsbDevice :=
  set_sendReady true (set_staged rgb (fWidth desc) (fHeight desc / 2) d).

(** [sendStereo]; [try_lock] is what [_sendMutex.try_lock()] returned.
    The mutex is released again on every return. *)
Definition sendStereo (try_lock : bool) (data : PixelData)
  (desc : MTextureDescription) (d : MayaUsbDevice) : bool * MayaUsbDevice :=
  if try_lock then
    if negb (_sendReady d) then
      match fFormat desc with
      | kR32G32B32A32_FLOAT =>
        (true, stage (decomposeCheckerboardStereoFloat data (fWidth desc) (fHeight desc)
                        (_rgbImageBuffer d) RGB_IMAGE_SIZE) desc d)
      | kR8G8B8A8_UNORM =>
        (true, stage (decomposeCheckerboardStereoUchar data (fWidth desc) (fHeight desc)
                        (_rgbImageBuffer d) RGB_IMAGE_SIZE) desc d)
      | kOtherFormat _ => (false, d)
      end
    else (false, d)
  else (false, d).

(** [for (int i = 0; i < _jpegBufferSize; i += BUFFER_LEN)]: [i] is an
    [int], compared and subtracted as a [size_t]; [written k] is the
    count the k-th OUT transfer of the iteration stored.  Gives the
    transfers made and [error]; [None] when [fuel] is used up. *)
Fixpoint send_chunks (fuel : nat) (written : nat -> Z) (k : nat) (i : Z)
  (jpegBuffer : bytes) (jpegBufferSize : Z) : option (list Bulk.write * bool) :=
  match fuel with
  | O => None
  | S fuel' =>
    if size_t i <? jpegBufferSize then
      let chunk := int32 (Z.min BUFFER_LEN (size_t (jpegBufferSize - size_t i))) in
      let w := Bulk.mkWrite (firstn (Z.to_nat chunk) (skipn (Z.to_nat i) jpegBuffer))
                 (written k) in
      if written k <? chunk then Some ([w], true)
      else
        match send_chunks fuel' written (S k) (int32 (i + BUFFER_LEN))
                jpegBuffer jpegBufferSize with
        | Some (ws, error) => Some (w :: ws, error)
        | None => None
        end
    else Some ([], false)
  end.

(** The loop counter passes [jpegBufferSize] or wraps after at most
    this many rounds. *)
Definition chunk_fuel (jpegBufferSize : Z) : nat :=
  S (Z.to_nat (Z.min jpegBufferSize (2 ^ 31) / BUFFER_LEN + 1)).

(** The encode-and-send branch of one iteration: the device after it,
    the OUT transfers made, and [error]. *)
Definition send_frame (written : nat -> Z) (d : MayaUsbDevice)
  : option (MayaUsbDevice * list Bulk.write * bool) :=
  let jpeg := tjCompress2 (_rgbImageBuffer d) (_jpegBufferWidth d) (_jpegBufferHeight d) in
  let d := set_jpeg jpeg (size_t (Z.of_nat (List.length jpeg))) d in
  let header := nativeToBig host (uint32 (_jpegBufferSize d)) in
  let w := Bulk.mkWrite (object_bytes host header) (written O) in
  if size_t (written O) <? 4 then Some (d, [w], true)
  else
    match send_chunks (chunk_fuel (_jpegBufferSize d)) written 1 0
            (_jpegBuffer d) (_jpegBufferSize d) with
    | Some (ws, error) => Some (d, w :: ws, error)
    | None => None
    end.

(** What other threads do while the send worker sits in
    [_sendCv.wait] (the mutex is free then). *)
Inductive ext_action : Type :=
| ExtCancel
| ExtSubmit (data : PixelData) (desc : MTextureDescription).

Definition ext_step (s : bool * MayaUsbDevice) (a : ext_action) : bool * MayaUsbDevice :=
  match a with
  | ExtCancel => (true, snd s)
  | ExtSubmit data desc => (fst s, snd (sendStereo true data desc (snd s)))
  end.

(** One round of the environment: what happens before the worker looks
    at the wait predicate again, and the counts its OUT transfers will
    store in that iteration. *)
Record tick : Type := mkTick {
  before : list ext_action;
  written : nat -> Z
}.

(** The termination frame: [uint32_t bytes = 0], four bytes. *)
Definition termination (sent : Z) : Bulk.write := Bulk.mkWrite [0; 0; 0; 0] sent.

(** The worker body: [while (true)] and the two statements after it.
    [flag] is the shared cancellation flag, [out] the OUT transfers so
    far. *)
Fixpoint send_loop (script : list tick) (flag : bool) (d : MayaUsbDevice)
  (out : list Bulk.write) : run unit :=
  match script with
  | [] => Running
  | t :: rest =>
    let s := fold_left ext_step (before t) (flag, d) in
    let flag := fst s in
    let d := snd s in
    if negb (_sendReady d || flag) then send_loop rest flag d out
    else if flag then
      (* cancel branch: the result of the write is not looked at *)
      Exited (mkFinished true [] (out ++ [termination (written t O)])%list d)
    else
      match send_frame (written t) d with
      | None => Running
      | Some (d, ws, error) =>
        if error then Exited (mkFinished true [tt] (out ++ ws)%list d)
        else send_loop rest flag (set_sendReady false d) (out ++ ws)%list
      end
  end.

Definition send_worker (script : list tick) (d : MayaUsbDevice) : run unit :=
  send_loop script false d [].

Definition beginSendLoop (script : list tick) (d : MayaUsbDevice)
  : bool * MayaUsbDevice * option (run unit) :=
  if _outEndpoint d =? 0 then (false, d, None)
  else if negb (_handshake d) then (false, d, None)
  else
    let d := set_sendReady false d in
    (true, d, Some (send_worker script d)).

End SendPath.

(** * Scenarios and reference definitions

    Expected conversations, sample devices and the receiver's side of
    the framing, used to state the properties below. *)

Module AOAP.
Import Control.

Definition GET_PROTOCOL : request := mkRequest 192 51 0 0 [] 2 2.
Definition SEND_STRING (index : Z) (s : string) : request :=
  mkRequest 64 52 0 index (string_bytes s) 256 (Z.of_nat (String.length s)).
Definition START_ACCESSORY : request := mkRequest 64 53 0 0 [] 0 0.

(** The whole conversation of a successful conversion. *)
Definition conversation : list request :=
  [ GET_PROTOCOL;
    SEND_STRING 0 "SiriusCybernetics";
    SEND_STRING 1 "MayaUsb";
    SEND_STRING 2 "Maya USB streaming";
    SEND_STRING 3 "0.42";
    SEND_STRING 4 "https://sdao.me";
    SEND_STRING 5 "42";
    START_ACCESSORY ].

(** A device that accepts everything and reports [version]. *)
Definition friendly (version : Z) : device := fun _ => mkReply 0 version.

(** A device that fails the n-th transfer. *)
Definition failing_at (n : nat) (version : Z) : device :=
  fun m => mkReply (if Nat.eqb m n then -1 else 0) version.
End AOAP.


(** A device with two bulk IN endpoints and two bulk OUT endpoints. *)
Definition two_of_each : Bus :=
  mkBus (fun id => pid id =? 0x2D01) 0 0 "Acme" 0 "Gadget" 0
    [ mkEndpoint 0x81 2; mkEndpoint 0x01 2; mkEndpoint 0x82 2; mkEndpoint 0x02 2 ] 0.

(** The same device with no endpoint at all. *)
Definition no_endpoints : Bus :=
  mkBus (fun id => pid id =? 0x2D01) 0 0 "Acme" 0 "Gadget" 0 [] 0.

(** Storage holding arbitrary values before construction. *)
Definition stale : MayaUsbDevice :=
  mkDevice (mkId 0 0) "" "" 7 9 true true [] 0 0 [] 0.

(** The claim as the spec states it: the recorded addresses are those of
    the first bulk endpoint of each direction, zero when there is none. *)
Definition records_first_bulk_endpoints : Prop :=
  forall bus raw ids d,
    construct bus raw ids = inl d ->
    _inEndpoint d = spec_first_bulk_endpoint LIBUSB_ENDPOINT_IN (endpoints bus)
    /\ _outEndpoint d = spec_first_bulk_endpoint LIBUSB_ENDPOINT_OUT (endpoints bus).

(** The pattern the accessory sends: 0, 1, ..., 255, 0, 1, ... *)
Definition handshake_pattern (n : nat) : bytes :=
  map (fun i => Z.of_nat i mod 256) (seq 0 n).


(** A read that stopped after three bytes. *)
Definition short_read : waited :=
  mkWaited false 0 3 [0; 1; 2].

(** A read that ended on the 500 ms timeout. *)
Definition timed_out (r : Bulk.result) : Prop := Bulk.status r = LIBUSB_ERROR_TIMEOUT.

(** The loop's [read] and buffer after a series of reads. *)
Definition drained (rs : list Bulk.result) (read : Z) (buf : bytes) : Z * bytes :=
  fold_left (fun s r => (Bulk.transferred r, Bulk.fill (snd s) r)) rs (read, buf).

(** A device past construction, with both endpoints, before the
    handshake. *)
Definition attached : MayaUsbDevice :=
  mkDevice (mkId 0x18D1 0x2D01) "Acme" "Gadget" 0x81 0x01 false false [] 0 0 [] 0.

(** A read with nothing received before the timeout. *)
Definition timeout_read : Bulk.result := Bulk.mkResult LIBUSB_ERROR_TIMEOUT [].

(** A run cancelled after two timeouts.  The first read ends the flush. *)
Definition abandoned : recv_env :=
  mkRecvEnv (fun k => (2 <=? k)%nat) [timeout_read; timeout_read; timeout_read] [9; 9; 9; 9].

(** A run in which three bytes arrive after two timeouts. *)
Definition answered : recv_env :=
  mkRecvEnv (fun _ => false)
    [timeout_read; timeout_read; timeout_read; Bulk.mkResult 0 [0; 1; 2]] [9; 9; 9; 9].

Section Staging.
Context {ext : Collaborators}.

(** What the decomposition puts in the staging buffer for a frame of a
    supported format. *)
Definition decomposed (data : PixelData) (desc : MTextureDescription)
  (d : MayaUsbDevice) : bytes :=
  match fFormat desc with
  | kR32G32B32A32_FLOAT =>
    decomposeCheckerboardStereoFloat data (fWidth desc) (fHeight desc)
      (_rgbImageBuffer d) RGB_IMAGE_SIZE
  | kR8G8B8A8_UNORM =>
    decomposeCheckerboardStereoUchar data (fWidth desc) (fHeight desc)
      (_rgbImageBuffer d) RGB_IMAGE_SIZE
  | kOtherFormat _ => _rgbImageBuffer d
  end.

End Staging.

(** Stand-ins for the collaborators: pixel data is a list of bytes, the
    decomposition copies it over the start of the buffer, and the
    compressor emits one byte per pixel. *)
Definition overwrite (data : bytes) (buf : bytes) : bytes :=
  (data ++ skipn (List.length data) buf)%list.

#[local] Instance stand_ins : Collaborators := {
  PixelData := bytes;
  RGB_IMAGE_SIZE := 16;
  decomposeCheckerboardStereoFloat := fun data _ _ buf _ => overwrite data buf;
  decomposeCheckerboardStereoUchar := fun data _ _ buf _ => overwrite data buf;
  tjCompress2 := fun rgb w h => repeat 255 (Z.to_nat (w * h))
}.

(** A device after a successful handshake, nothing staged. *)
Definition streaming : MayaUsbDevice :=
  mkDevice (mkId 0x18D1 0x2D01) "Acme" "Gadget" 0x81 0x01 true false
    [0; 0; 0; 0] 0 0 [] 0.

(** A 3 by 4 checkerboard frame of 8-bit RGBA. *)
Definition frame_desc : MTextureDescription := mkDesc 3 4 kR8G8B8A8_UNORM.

(** [sendStereo] with the stand-ins. *)
Definition submit := sendStereo (ext := stand_ins).

(** The big-endian bytes of a 32-bit length, most significant first. *)
Definition be32 (n : Z) : bytes := [byte_of n 3; byte_of n 2; byte_of n 1; byte_of n 0].

(** The largest [int]; the chunk loop counts in an [int]. *)
Definition INT_MAX : Z := 2 ^ 31 - 1.

(** A write that hands over between 1 and [BUFFER_LEN] bytes. *)
Definition fits (w : Bulk.write) : Prop :=
  0 < Z.of_nat (List.length (Bulk.buffer w)) <= BUFFER_LEN.

(** A write whose stored count covers the whole buffer handed over. *)
Definition complete (w : Bulk.write) : Prop :=
  Z.of_nat (List.length (Bulk.buffer w)) <= Bulk.sent w.

(** The byte stream the peer receives from a series of writes. *)
Definition transmitted (ws : list Bulk.write) : bytes :=
  List.concat (map Bulk.on_wire ws).

(** The device with a 3 by 4 stereo frame staged (3 by 2 once the eyes
    are split); the stand-in compressor turns it into 6 bytes. *)
Definition staged : MayaUsbDevice := snd (submit true [1; 2] frame_desc streaming).

(** Every write goes through in full: the header, then one chunk. *)
Definition full_writes (k : nat) : Z :=
  match k with
  | O => 4
  | _ => 6
  end.

(** The transfer of the chunk stops after two bytes. *)
Definition short_writes (k : nat) : Z :=
  match k with
  | O => 4
  | _ => 2
  end.

(** Rounds of the send worker's environment: a frame is submitted and
    sent in full; a frame is submitted and its chunk falls short; the
    worker is cancelled. *)
Definition frame_tick : tick (ext := stand_ins) :=
  mkTick [ExtSubmit [1; 2] frame_desc] full_writes.

Definition broken_tick : tick (ext := stand_ins) :=
  mkTick [ExtSubmit [1; 2] frame_desc] short_writes.

Definition cancel_tick : tick (ext := stand_ins) :=
  mkTick [ExtCancel] (fun _ => 0).

(** Reads of the read loop: two bytes arrive, then the device is gone. *)
Definition unplugged : recv_env :=
  mkRecvEnv (fun _ => false) [Bulk.mkResult 0 [1; 2]; Bulk.mkResult (-4) []] [9; 9].

(** * The rest of the device

    The operations of MayaUsbDevice.cpp besides those above: the
    two-argument constructor, the description, the process-wide library
    handles and the destructor, with the reference definitions their
    properties are stated with. *)

(** [MayaUsbDevice(uint16_t vid, uint16_t pid)] delegates to the list
    constructor with the single candidate. *)
Definition construct_vid_pid (bus : Bus) (raw : MayaUsbDevice) (vid pid : Z)
  : MayaUsbDevice + thrown :=
  construct bus raw [mkId (uint16 vid) (uint16 pid)].

(** The device that construction gives on the bus [two_of_each]. *)
Definition constructed : MayaUsbDevice :=
  mkDevice (mkId 0x18D1 0x2D01) "Acme" "Gadget" 0x82 0x02 false false [] 0 0 [] 0.

(** ** getDescription *)

(** A digit as [std::hex] prints it. *)
Definition hex_digit (n : Z) : ascii :=
  nth (Z.to_nat n)
    ["0"; "1"; "2"; "3"; "4"; "5"; "6"; "7"; "8"; "9"; "a"; "b"; "c"; "d"; "e"; "f"]%char
    "0"%char.

(** The digits of an unsigned number in base 16, most significant
    first, none for a leading zero; [fuel] bounds the number of digits. *)
Fixpoint hex_digits (fuel : nat) (n : Z) : list ascii :=
  match fuel with
  | O => []
  | S fuel' =>
    if n <? 16 then [hex_digit n]
    else (hex_digits fuel' (n / 16) ++ [hex_digit (n mod 16)])%list
  end.

(** [std::setw(width)] with [std::setfill(fill)]: fill on the left. *)
Definition pad_left (fill : ascii) (width : nat) (s : list ascii) : list ascii :=
  (repeat fill (width - List.length s) ++ s)%list.

(** [os << std::setfill('0') << std::hex << std::setw(4) << v] for a
    [uint16_t]: at most four digits. *)
Definition put_hex16 (v : Z) : list ascii :=
  pad_left "0"%char 4 (hex_digits 4 (uint16 v)).

Definition getDescription (d : MayaUsbDevice) : string :=
  (string_of_list_ascii (put_hex16 (vid (_id d))) ++ ":"
   ++ string_of_list_ascii (put_hex16 (pid (_id d))) ++ " "
   ++ _manufacturer d ++ " " ++ _product d)%string.

(** Reading hexadecimal digits back, for comparison. *)
Definition hex_digit_value (c : ascii) : Z :=
  let n := Z.of_nat (nat_of_ascii c) in
  if (48 <=? n) && (n <=? 57) then n - 48
  else if (97 <=? n) && (n <=? 102) then n - 87
  else -1.

Definition hex_value (s : list ascii) : Z :=
  fold_left (fun acc c => 16 * acc + hex_digit_value c) s 0.

Definition isHandshakeComplete (d : MayaUsbDevice) : bool := _handshake d.

(** ** Process-wide library handles *)

(** The calls made to the two libraries; an initialisation carries
    whether it produced a handle. *)
Inductive lib_call : Type :=
| call_libusb_init (created : bool)
| call_libusb_exit
| call_tjInitCompress (created : bool)
| call_tjDestroy.

(** The static members: whether [_usb] and [_jpegCompressor] are
    non-null, and the library calls made so far, oldest first. *)
Record Statics : Type := mkStatics {
  _usb : bool;
  _jpegCompressor : bool;
  lib_calls : list lib_call
}.

(** [initUsb]; [created] tells whether [libusb_init] stored a context. *)
Definition initUsb (created : bool) (s : Statics) : Statics :=
  if _usb s then s
  else mkStatics created (_jpegCompressor s)
         (lib_calls s ++ [call_libusb_init created])%list.

Definition exitUsb (s : Statics) : Statics :=
  let s := if _usb s
           then mkStatics (_usb s) (_jpegCompressor s) (lib_calls s ++ [call_libusb_exit])%list
           else s in
  mkStatics false (_jpegCompressor s) (lib_calls s).

(** [initJpeg]; [created] tells whether [tjInitCompress] returned a
    handle. *)
Definition initJpeg (created : bool) (s : Statics) : Statics :=
  if _jpegCompressor s then s
  else mkStatics (_usb s) created (lib_calls s ++ [call_tjInitCompress created])%list.

Definition exitJpeg (s : Statics) : Statics :=
  let s := if _jpegCompressor s
           then mkStatics (_usb s) (_jpegCompressor s) (lib_calls s ++ [call_tjDestroy])%list
           else s in
  mkStatics (_usb s) false (lib_calls s).

(** A call of one of the four static functions. *)
Inductive static_op : Type :=
| InitUsb (created : bool)
| ExitUsb
| InitJpeg (created : bool)
| ExitJpeg.

Definition static_step (s : Statics) (op : static_op) : Statics :=
  match op with
  | InitUsb created => initUsb created s
  | ExitUsb => exitUsb s
  | InitJpeg created => initJpeg created s
  | ExitJpeg => exitJpeg s
  end.

(** The statics at program start: [_usb(nullptr)],
    [_jpegCompressor(nullptr)]. *)
Definition statics0 : Statics := mkStatics false false [].

(** The discipline a library expects of its caller, as a check on a
    series of calls: no initialisation while a handle is live, no release
    without a live handle.  Gives whether a handle is live at the end,
    [None] when the discipline was broken. *)
Inductive library : Type := Usb | Jpeg.

Definition init_of (l : library) (c : lib_call) : option bool :=
  match l, c with
  | Usb, call_libusb_init created => Some created
  | Jpeg, call_tjInitCompress created => Some created
  | _, _ => None
  end.

Definition exit_of (l : library) (c : lib_call) : bool :=
  match l, c with
  | Usb, call_libusb_exit => true
  | Jpeg, call_tjDestroy => true
  | _, _ => false
  end.

Fixpoint replay (l : library) (live : bool) (cs : list lib_call) : option bool :=
  match cs with
  | [] => Some live
  | c :: cs' =>
    match init_of l c with
    | Some created => if live then None else replay l created cs'
    | None =>
      if exit_of l c then (if live then replay l false cs' else None)
      else replay l live cs'
    end
  end.

(** ** The destructor *)

(** [InterruptibleThread]: the shared flag of a worker. *)
Record InterruptibleThread : Type := mkThread { _cancel : bool }.

Definition cancel (t : InterruptibleThread) : InterruptibleThread := mkThread true.
Definition isCancelled (t : InterruptibleThread) : bool := _cancel t.

(** What the destructor does besides writing flags. *)
Inductive teardown_action : Type :=
| notify_send
| sleep_2s
| free_rgb
| free_jpeg
| release_interface
| close_handle.

(** [~MayaUsbDevice]: the two worker pointers ([None] for a null
    pointer) and whether [_jpegBuffer] is non-null; gives the workers
    afterwards and the actions in order. *)
Definition destroy (receiveWorker sendWorker : option InterruptibleThread)
  (jpegAllocated : bool)
  : option InterruptibleThread * option InterruptibleThread * list teardown_action :=
  let live w := match w with Some t => negb (isCancelled t) | None => false end in
  let receiving := live receiveWorker in
  let sending := live sendWorker in
  let receiveWorker := if receiving then option_map cancel receiveWorker else receiveWorker in
  let sendWorker := if sending then option_map cancel sendWorker else sendWorker in
  let needDelay := receiving || sending in
  (receiveWorker, sendWorker,
   (if sending then [notify_send] else [])
   ++ (if needDelay then [sleep_2s] else [])
   ++ [free_rgb]
   ++ (if jpegAllocated then [free_jpeg] else [])
   ++ [release_interface; close_handle])%list.

(** A worker that exists and whose cancel flag is not set.  The flag
    says nothing about the thread, which is detached and never joined. *)
Definition uncancelled (w : option InterruptibleThread) : bool :=
  match w with
  | Some t => negb (isCancelled t)
  | None => false
  end.

(** The worker object a run that has returned leaves behind. *)
Definition thread_after {C : Type} (f : finished C) : InterruptibleThread :=
  mkThread (cancel_flag f).

(** ** Reference definitions for the loops *)

(** A read that returned 0. *)
Definition returned_zero (r : Bulk.result) : Prop := Bulk.status r = 0.

(** The read in which the accessory's whole pattern arrives. *)
Definition pattern_read : Bulk.result :=
  Bulk.mkResult 0 (handshake_pattern (Z.to_nat BUFFER_LEN)).

(** The buffer after a series of reads into it. *)
Definition filled (rs : list Bulk.result) (buf : bytes) : bytes :=
  fold_left Bulk.fill rs buf.


(** The buffers the read loop's callback is given over a series of
    reads: one per read that returned 0, as the buffer stands then. *)
Fixpoint delivered (rs : list Bulk.result) (buf : bytes) : list bytes :=
  match rs with
  | [] => []
  | r :: rest =>
    let buf := Bulk.fill buf r in
    if Bulk.status r =? 0 then buf :: delivered rest buf else delivered rest buf
  end.

(** A read the read loop goes on after. *)
Definition carries_on (r : Bulk.result) : Prop :=
  Bulk.status r = 0 \/ Bulk.status r = LIBUSB_ERROR_TIMEOUT.

(** A frame as it travels: big-endian length, then the JPEG. *)
Definition framed (jpeg : bytes) : bytes :=
  (be32 (Z.of_nat (List.length jpeg)) ++ jpeg)%list.

(** The receiving side over a whole session: frames until the
    zero-valued header. *)
Fixpoint decode_stream (fuel : nat) (wire : bytes) : option (list bytes) :=
  match fuel with
  | O => None
  | S fuel' =>
    match decode_be32 wire with
    | None => None
    | Some n =>
      if n =? 0 then Some []
      else
        let body := skipn 4 wire in
        if Z.of_nat (List.length body) <? n then None
        else
          match decode_stream fuel' (skipn (Z.to_nat n) body) with
          | Some frames => Some (firstn (Z.to_nat n) body :: frames)
          | None => None
          end
    end
  end.

(** A transfer that hands over exactly [BUFFER_LEN] bytes. *)
Definition full (w : Bulk.write) : Prop :=
  Z.of_nat (List.length (Bulk.buffer w)) = BUFFER_LEN.

(** A transfer that hands over at most [BUFFER_LEN] bytes. *)
Definition bounded (w : Bulk.write) : Prop :=
  Z.of_nat (List.length (Bulk.buffer w)) <= BUFFER_LEN.

(** A compressor stand-in whose output is never empty and never long:
    the first three bytes of the buffer and an end marker. *)
#[local] Instance marking_codec : Collaborators := {
  PixelData := bytes;
  RGB_IMAGE_SIZE := 16;
  decomposeCheckerboardStereoFloat := fun data _ _ buf _ => overwrite data buf;
  decomposeCheckerboardStereoUchar := fun data _ _ buf _ => overwrite data buf;
  tjCompress2 := fun rgb _ _ => (firstn 3 rgb ++ [217])%list
}.

(** A session with it: two frames submitted and sent in full, then the
    cancellation, whose termination frame goes through. *)
Definition session : list (tick (ext := marking_codec)) :=
  [ mkTick [ExtSubmit [1; 2] frame_desc] (fun _ => 4);
    mkTick [ExtSubmit [5] frame_desc] (fun _ => 4);
    mkTick [ExtCancel] (fun _ => 4) ].

(** ** Reference definitions for frames of several chunks, the string
    request and the description *)

(** The number of bytes handed to transfer number [n] of the payload of
    a JPEG of [size] bytes. *)
Definition chunk_size (size : Z) (n : nat) : Z :=
  Z.min BUFFER_LEN (size - BUFFER_LEN * Z.of_nat n).

(** Every transfer of a frame stores a count that covers what it was
    handed: the four bytes of the header, then each chunk of the
    payload. *)
Definition all_written (counts : nat -> Z) (size : Z) : Prop :=
  4 <= counts O
  /\ forall n, BUFFER_LEN * Z.of_nat n < size -> chunk_size size n <= counts (S n).

(** The device with a 200 by 200 stereo frame staged (200 by 100 once
    the eyes are split): the stand-in compressor turns it into 20000
    bytes, more than one chunk. *)
Definition wide_staged : MayaUsbDevice :=
  snd (submit true [1; 2] (mkDesc 200 200 kR8G8B8A8_UNORM) streaming).

(** Every write goes through in full: the header, a chunk of 16384
    bytes and a chunk of 3616 bytes. *)
Definition wide_writes (k : nat) : Z :=
  match k with
  | O => 4
  | S O => 16384
  | _ => 3616
  end.

(** The first chunk goes through, the second stops after 100 bytes. *)
Definition cut_writes (k : nat) : Z :=
  match k with
  | O => 4
  | S O => 16384
  | _ => 100
  end.



(** A character that is a hexadecimal digit in lower case. *)
Definition lower_hex (c : ascii) : Prop :=
  In c ["0"; "1"; "2"; "3"; "4"; "5"; "6"; "7"; "8"; "9";
        "a"; "b"; "c"; "d"; "e"; "f"]%char.

(** * Properties *)

(** ** Machine integers *)

Lemma wrap_small bits x : 0 <= x < 2 ^ bits -> wrap bits x = x.
Proof. intros H. unfold wrap. now apply Z.mod_small. Qed.

Lemma int16_high u : 32768 <= u <= 65535 -> int16 u = u - 65536.
Proof.
  intros H. unfold int16, to_signed.
  rewrite wrap_small by (change (2 ^ 16) with 65536; lia).
  change (2 ^ (16 - 1)) with 32768. change (2 ^ 16) with 65536.
  destruct (Z.ltb_spec u 32768); lia.
Qed.

Lemma int16_low u : 0 <= u < 32768 -> int16 u = u.
Proof.
  intros H. unfold int16, to_signed.
  rewrite wrap_small by (change (2 ^ 16) with 65536; lia).
  change (2 ^ (16 - 1)) with 32768.
  destruct (Z.ltb_spec u 32768); lia.
Qed.

Lemma int32_small x : - 2 ^ 31 <= x < 2 ^ 31 -> 0 <= x -> int32 x = x.
Proof.
  intros H H0. unfold int32, to_signed.
  rewrite wrap_small by (change (2 ^ 32) with (2 * 2 ^ 31); lia).
  change (2 ^ (32 - 1)) with (2 ^ 31).
  destruct (Z.ltb_spec x (2 ^ 31)); lia.
Qed.

Lemma int32_wraps x : 2 ^ 31 <= x < 2 ^ 32 -> int32 x = x - 2 ^ 32.
Proof.
  intros H. unfold int32, to_signed.
  rewrite wrap_small by lia.
  change (2 ^ (32 - 1)) with (2 ^ 31).
  destruct (Z.ltb_spec x (2 ^ 31)); lia.
Qed.

Lemma size_t_small x : 0 <= x < 2 ^ 64 -> size_t x = x.
Proof. apply wrap_small. Qed.

Lemma size_t_negative x : - 2 ^ 64 <= x < 0 -> size_t x = x + 2 ^ 64.
Proof.
  intros H. unfold size_t, wrap.
  symmetry. apply Z.mod_unique with (q := -1); lia.
Qed.

(** ** The accessory conversion *)

Section ControlFacts.
Import Control AOAP.
Variable dev : device.

Lemma getControlInt16_run request l :
  getControlInt16 dev request l =
  ((l ++ [mkRequest 192 request 0 0 [] 2 2])%list,
   if status (dev (List.length l)) <? 0 then inr (ThrowValue "Could not get request")
   else inl (int16 (word (dev (List.length l))))).
Proof.
  unfold getControlInt16, bind, libusb_control_transfer.
  destruct (status (dev (List.length l)) <? 0); reflexivity.
Qed.

Lemma sendControl_run request l :
  sendControl dev request l =
  ((l ++ [mkRequest 64 request 0 0 [] 0 0])%list,
   if status (dev (List.length l)) <? 0 then inr (ThrowPointer "Could not send request")
   else inl tt).
Proof.
  unfold sendControl, bind, libusb_control_transfer.
  destruct (status (dev (List.length l)) <? 0); reflexivity.
Qed.

Lemma sendControlString_run request index str l :
  sendControlString dev request index str l =
  ((l ++ [mkRequest 64 request 0 index (firstn 256 (string_bytes str)) 256
            (uint16 (Z.of_nat (String.length str)))])%list,
   if status (dev (List.length l)) <? 0 then inr (ThrowPointer "Could not send request")
   else inl tt).
Proof.
  unfold sendControlString, bind, libusb_control_transfer.
  destruct (status (dev (List.length l)) <? 0); reflexivity.
Qed.

End ControlFacts.

Section ConversionFacts.
Import Control AOAP.
Variable dev : device.

(** The conversion as a decision list over the device's answers. *)
Lemma convertToAccessory_cases :
  convertToAccessory dev [] =
  let failed n := status (dev n) <? 0 in
  let broken := inr (ThrowPointer "Could not send request") in
  if failed 0%nat then ([GET_PROTOCOL], inr (ThrowValue "Could not get request"))
  else if int16 (word (dev 0%nat)) <? 1 then ([GET_PROTOCOL], inr ProtocolUnsupported)
  else if failed 1%nat then (firstn 2 conversation, broken)
  else if failed 2%nat then (firstn 3 conversation, broken)
  else if failed 3%nat then (firstn 4 conversation, broken)
  else if failed 4%nat then (firstn 5 conversation, broken)
  else if failed 5%nat then (firstn 6 conversation, broken)
  else if failed 6%nat then (firstn 7 conversation, broken)
  else if failed 7%nat then (conversation, broken)
  else (conversation, inl tt).
Proof.
  unfold convertToAccessory, bind.
  rewrite getControlInt16_run. cbn [List.length app].
  destruct (status (dev 0%nat) <? 0); [reflexivity|].
  destruct (int16 (word (dev 0%nat)) <? 1); [reflexivity|].
  cbn [throw ret].
  repeat (rewrite sendControlString_run; cbn [List.length app];
          match goal with
          | |- context [status (dev ?n) <? 0] =>
            destruct (status (dev n) <? 0); [reflexivity|]
          end).
  rewrite sendControl_run. cbn [List.length app].
  destruct (status (dev 7%nat) <? 0); reflexivity.
Qed.

Ltac accepted H n :=
  let E := fresh "E" in
  destruct (Z.ltb_spec (status (dev n)) 0) as [E|E];
  [ exfalso; specialize (H n); lia | clear E ].

(** C4. A reported version below 1 is refused as unsupported after the
    version request alone; otherwise the six string requests (request
    52, indices 0 to 5, the accessory's literals) and then one start
    request (request 53, no payload) are issued and nothing is raised
    when every transfer succeeds; the first failing transfer is the
    last one issued. *)
Theorem convertToAccessory_sequence :
  (0 <= status (dev 0%nat) -> int16 (word (dev 0%nat)) < 1 ->
   convertToAccessory dev [] = ([GET_PROTOCOL], inr ProtocolUnsupported))
  /\ ((forall n, (n < 8)%nat -> 0 <= status (dev n)) ->
      1 <= int16 (word (dev 0%nat)) ->
      convertToAccessory dev [] = (conversation, inl tt))
  /\ (forall n, (n < 8)%nat ->
      (forall m, (m < n)%nat -> 0 <= status (dev m)) ->
      status (dev n) < 0 ->
      (n <> 0%nat -> 1 <= int16 (word (dev 0%nat))) ->
      exists e, convertToAccessory dev [] = (firstn (S n) conversation, inr e)
                /\ is_ControlTransferError e).
Proof.
  rewrite convertToAccessory_cases. cbv beta zeta.
  split; [|split].
  - intros Hs Hv.
    destruct (Z.ltb_spec (status (dev 0%nat)) 0); [lia|].
    destruct (Z.ltb_spec (int16 (word (dev 0%nat))) 1); [reflexivity|lia].
  - intros Hs Hv.
    accepted Hs 0%nat.
    destruct (Z.ltb_spec (int16 (word (dev 0%nat))) 1); [lia|].
    accepted Hs 1%nat. accepted Hs 2%nat. accepted Hs 3%nat. accepted Hs 4%nat.
    accepted Hs 5%nat. accepted Hs 6%nat. accepted Hs 7%nat.
    reflexivity.
  - intros n Hn Hs Hf Hv.
    destruct n as [|n].
    { destruct (Z.ltb_spec (status (dev 0%nat)) 0); [|lia].
      eexists; split; [reflexivity | left; reflexivity]. }
    accepted Hs 0%nat.
    destruct (Z.ltb_spec (int16 (word (dev 0%nat))) 1); [lia|].
    do 7 (destruct n as [|n];
          [ match goal with
            | |- context [status (dev ?k) <? 0] =>
              destruct (Z.ltb_spec (status (dev k)) 0); [|lia]
            end;
            eexists; split; [reflexivity | right; reflexivity]
          | match goal with
            | |- context [status (dev ?k) <? 0] => accepted Hs k
            end ]).
    lia.
Qed.

(** C9. A version word with the high bit set reads as a negative
    [int16_t]: the conversion is refused as unsupported although the
    same word read unsigned is at least 1. *)
Theorem high_bit_version_is_refused (u : Z) :
  32768 <= u <= 65535 ->
  0 <= status (dev 0%nat) ->
  word (dev 0%nat) = u ->
  int16 u < 0 /\ int16 u < 1 /\ 1 <= uint16 u
  /\ convertToAccessory dev [] = ([GET_PROTOCOL], inr ProtocolUnsupported).
Proof.
  intros Hu Hs Hw.
  pose proof (int16_high u Hu) as Hi.
  assert (uint16 u = u) as Hq
    by (apply wrap_small; change (2 ^ 16) with 65536; lia).
  repeat split; try lia.
  rewrite convertToAccessory_cases. cbv beta zeta.
  destruct (Z.ltb_spec (status (dev 0%nat)) 0); [lia|].
  rewrite Hw.
  destruct (Z.ltb_spec (int16 u) 1); [reflexivity|lia].
Qed.

End ConversionFacts.

(** C4 on three devices: one that reports version 2 and accepts every
    request, one that reports version 0, one that fails the third string. *)
Lemma convertToAccessory_sequence_witness :
  Control.status (AOAP.friendly 2 0%nat) = 0
  /\ convertToAccessory (AOAP.friendly 2) [] = (AOAP.conversation, inl tt)
  /\ convertToAccessory (AOAP.friendly 0) [] = ([AOAP.GET_PROTOCOL], inr ProtocolUnsupported)
  /\ exists e, convertToAccessory (AOAP.failing_at 3 2) [] = (firstn 4 AOAP.conversation, inr e)
               /\ is_ControlTransferError e.
Proof.
  split; [reflexivity|].
  split; [|split].
  - apply (proj1 (proj2 (convertToAccessory_sequence (AOAP.friendly 2)))).
    + intros n _. simpl. lia.
    + now vm_compute.
  - apply (proj1 (convertToAccessory_sequence (AOAP.friendly 0))).
    + simpl. lia.
    + now vm_compute.
  - apply (proj2 (proj2 (convertToAccessory_sequence (AOAP.failing_at 3 2))) 3%nat).
    + lia.
    + intros m Hm. do 3 (destruct m as [|m]; [simpl; lia|]). lia.
    + simpl. lia.
    + intros _. now vm_compute.
Defined.

(** C9 on the word 0xFFFF. *)
Lemma high_bit_version_is_refused_witness :
  int16 65535 = -1
  /\ convertToAccessory (AOAP.friendly 65535) [] = ([AOAP.GET_PROTOCOL], inr ProtocolUnsupported).
Proof.
  split; [reflexivity|].
  apply (high_bit_version_is_refused (AOAP.friendly 65535) 65535).
  - lia.
  - simpl. lia.
  - reflexivity.
Defined.

(** ** The string request *)

Lemma string_bytes_length s : List.length (string_bytes s) = String.length s.
Proof.
  unfold string_bytes. rewrite length_map.
  induction s as [|c s IH]; simpl; [reflexivity | now rewrite IH].
Qed.

(** Up to the capacity of [temp] the request carries the whole string
    and announces exactly what was copied. *)
Lemma sendControlString_in_range dev request index str :
  (String.length str <= 256)%nat ->
  fst (sendControlString dev request index str []) =
  [Control.mkRequest 64 request 0 index (string_bytes str) 256
     (Z.of_nat (List.length (string_bytes str)))].
Proof.
  intros H. rewrite sendControlString_run. cbn [fst app].
  rewrite firstn_all2 by (rewrite string_bytes_length; lia).
  rewrite string_bytes_length.
  unfold uint16. rewrite wrap_small; [reflexivity|].
  change (2 ^ 16) with 65536. lia.
Qed.






(** ** Endpoint discovery *)

Lemma record_endpoint_in d e :
  has_direction LIBUSB_ENDPOINT_IN e = true ->
  _inEndpoint (record_endpoint d e) = bEndpointAddress e
  /\ _outEndpoint (record_endpoint d e) = _outEndpoint d.
Proof.
  unfold has_direction, record_endpoint. intros H. rewrite H. split; reflexivity.
Qed.

Lemma record_endpoint_not_in d e :
  has_direction LIBUSB_ENDPOINT_IN e = false ->
  _inEndpoint (record_endpoint d e) = _inEndpoint d.
Proof.
  unfold has_direction, record_endpoint. intros H. rewrite H.
  destruct (Z.land (bEndpointAddress e) 128 =? LIBUSB_ENDPOINT_OUT); reflexivity.
Qed.

Lemma record_endpoint_out d e :
  has_direction LIBUSB_ENDPOINT_OUT e = true ->
  _outEndpoint (record_endpoint d e) = bEndpointAddress e
  /\ _inEndpoint (record_endpoint d e) = _inEndpoint d.
Proof.
  unfold has_direction, record_endpoint. intros H. rewrite H.
  destruct (Z.eqb_spec (Z.land (bEndpointAddress e) 128) LIBUSB_ENDPOINT_IN) as [E|E].
  - apply Z.eqb_eq in H. rewrite E in H. discriminate H.
  - split; reflexivity.
Qed.

Lemma record_endpoint_not_out d e :
  has_direction LIBUSB_ENDPOINT_OUT e = false ->
  _outEndpoint (record_endpoint d e) = _outEndpoint d.
Proof.
  unfold has_direction, record_endpoint. intros H. rewrite H.
  destruct (Z.land (bEndpointAddress e) 128 =? LIBUSB_ENDPOINT_IN); reflexivity.
Qed.

Lemma enumerate_keeps_in eps : forall d,
  (forall x, In x eps -> has_direction LIBUSB_ENDPOINT_IN x = false) ->
  _inEndpoint (enumerate_endpoints eps d) = _inEndpoint d.
Proof.
  unfold enumerate_endpoints.
  induction eps as [|e eps IH]; intros d H; simpl; [reflexivity|].
  rewrite IH by (intros x Hx; apply H; now right).
  apply record_endpoint_not_in, H. now left.
Qed.

Lemma enumerate_keeps_out eps : forall d,
  (forall x, In x eps -> has_direction LIBUSB_ENDPOINT_OUT x = false) ->
  _outEndpoint (enumerate_endpoints eps d) = _outEndpoint d.
Proof.
  unfold enumerate_endpoints.
  induction eps as [|e eps IH]; intros d H; simpl; [reflexivity|].
  rewrite IH by (intros x Hx; apply H; now right).
  apply record_endpoint_not_out, H. now left.
Qed.

Lemma enumerate_last_in pre e post d :
  has_direction LIBUSB_ENDPOINT_IN e = true ->
  (forall x, In x post -> has_direction LIBUSB_ENDPOINT_IN x = false) ->
  _inEndpoint (enumerate_endpoints (pre ++ e :: post) d) = bEndpointAddress e.
Proof.
  intros He Hpost. unfold enumerate_endpoints.
  rewrite fold_left_app. simpl.
  fold (enumerate_endpoints post (record_endpoint (fold_left record_endpoint pre d) e)).
  rewrite enumerate_keeps_in by exact Hpost.
  now apply record_endpoint_in.
Qed.

Lemma enumerate_last_out pre e post d :
  has_direction LIBUSB_ENDPOINT_OUT e = true ->
  (forall x, In x post -> has_direction LIBUSB_ENDPOINT_OUT x = false) ->
  _outEndpoint (enumerate_endpoints (pre ++ e :: post) d) = bEndpointAddress e.
Proof.
  intros He Hpost. unfold enumerate_endpoints.
  rewrite fold_left_app. simpl.
  fold (enumerate_endpoints post (record_endpoint (fold_left record_endpoint pre d) e)).
  rewrite enumerate_keeps_out by exact Hpost.
  now apply record_endpoint_out.
Qed.

(** C5, as stated, fails: with two IN endpoints the second one is
    recorded. *)
Lemma first_endpoint_is_overwritten : ~ records_first_bulk_endpoints.
Proof.
  intros H.
  destruct (H two_of_each stale getAoapIds
              (mkDevice (mkId 0x18D1 0x2D01) "Acme" "Gadget" 0x82 0x02 false false
                 [] 0 0 [] 0) eq_refl) as [Hin _].
  vm_compute in Hin. discriminate Hin.
Qed.

(** C5, amended. When the device opens and its descriptors are readable,
    construction succeeds whatever endpoints the first alternate setting
    lists; for a direction that has an endpoint, the recorded address is
    that of the last endpoint of that direction, whatever its transfer
    type. *)
Theorem construct_records_last_endpoints (bus : Bus) (raw : MayaUsbDevice)
  (ids : list MayaUsbDeviceId) (id : MayaUsbDeviceId) :
  open_first bus ids = Some id ->
  0 <= device_descriptor_status bus ->
  0 <= manufacturer_status bus ->
  0 <= product_status bus ->
  0 <= config_descriptor_status bus ->
  0 <= claim_status bus ->
  exists d,
    construct bus raw ids = inl d
    /\ (forall pre e post,
          endpoints bus = (pre ++ e :: post)%list ->
          has_direction LIBUSB_ENDPOINT_IN e = true ->
          (forall x, In x post -> has_direction LIBUSB_ENDPOINT_IN x = false) ->
          _inEndpoint d = bEndpointAddress e)
    /\ (forall pre e post,
          endpoints bus = (pre ++ e :: post)%list ->
          has_direction LIBUSB_ENDPOINT_OUT e = true ->
          (forall x, In x post -> has_direction LIBUSB_ENDPOINT_OUT x = false) ->
          _outEndpoint d = bEndpointAddress e).
Proof.
  intros Hopen H1 H2 H3 H4 H5.
  unfold construct. rewrite Hopen.
  destruct (Z.ltb_spec (device_descriptor_status bus) 0); [lia|].
  destruct (Z.ltb_spec (manufacturer_status bus) 0); [lia|].
  destruct (Z.ltb_spec (product_status bus) 0); [lia|].
  destruct (Z.ltb_spec (config_descriptor_status bus) 0); [lia|].
  destruct (Z.ltb_spec (claim_status bus) 0); [lia|].
  eexists. split; [reflexivity|]. split.
  - intros pre e post Heps He Hpost. rewrite Heps.
    now apply enumerate_last_in.
  - intros pre e post Heps He Hpost. rewrite Heps.
    now apply enumerate_last_out.
Qed.

(** The amended C5 on the device with two endpoints of each direction
    (0x82 and 0x02 are recorded) and on the device with none. *)
Lemma construct_records_last_endpoints_witness :
  (exists d, construct two_of_each stale getAoapIds = inl d
             /\ _inEndpoint d = 0x82 /\ _outEndpoint d = 0x02)
  /\ (exists d, construct no_endpoints stale getAoapIds = inl d).
Proof.
  split.
  - destruct (construct_records_last_endpoints two_of_each stale getAoapIds
                (mkId 0x18D1 0x2D01)) as [d [Hd [Hin Hout]]];
      try reflexivity; try (simpl; lia).
    exists d. split; [exact Hd|]. split.
    + apply (Hin [mkEndpoint 0x81 2; mkEndpoint 0x01 2] (mkEndpoint 0x82 2)
               [mkEndpoint 0x02 2]); [reflexivity | reflexivity |].
      intros x [Hx|[]]. now subst x.
    + apply (Hout [mkEndpoint 0x81 2; mkEndpoint 0x01 2; mkEndpoint 0x82 2]
               (mkEndpoint 0x02 2) []); [reflexivity | reflexivity |].
      intros x [].
  - destruct (construct_records_last_endpoints no_endpoints stale getAoapIds
                (mkId 0x18D1 0x2D01)) as [d [Hd _]];
      try reflexivity; try (simpl; lia).
    exists d. exact Hd.
Defined.

(** ** Handshake verification *)

Lemma uint8_mod i : uint8 i = i mod 256.
Proof. reflexivity. Qed.

Lemma handshake_scan_spec n : forall i buf,
  0 <= i ->
  handshake_scan n i buf = true <->
  (forall j, i <= j < i + Z.of_nat n -> nth (Z.to_nat j) buf 0 = j mod 256).
Proof.
  induction n as [|n IH]; intros i buf Hi.
  - simpl. split; [intros _ j Hj; lia | reflexivity].
  - cbn [handshake_scan]. rewrite uint8_mod.
    destruct (Z.eqb_spec (nth (Z.to_nat i) buf 0) (i mod 256)) as [E|E]; cbn [negb].
    + rewrite IH by lia. split.
      * intros H j Hj. destruct (Z.eq_dec j i) as [->|Hne]; [exact E|].
        apply H. lia.
      * intros H j Hj. apply H. lia.
    + split; [discriminate|].
      intros H. exfalso. apply E, H. lia.
Qed.


(** The verdict in terms of the read count and the buffer. *)
Lemma handshake_success_iff read buf :
  handshake_success read buf = true <->
  read = 16384
  /\ forall i, 0 <= i < 16384 -> nth (Z.to_nat i) buf 0 = i mod 256.
Proof.
  unfold handshake_success.
  destruct (Z.eqb_spec read BUFFER_LEN) as [E|E].
  - rewrite handshake_scan_spec by lia.
    rewrite Z2Nat.id by (unfold BUFFER_LEN; lia).
    unfold BUFFER_LEN in *. split.
    + intros H. split; [exact E|]. intros i Hi. apply H. lia.
    + intros [_ H] j Hj. apply H. lia.
  - unfold BUFFER_LEN in E. split; [discriminate|]. intros [H _]. contradiction.
Qed.


Lemma nth_handshake_pattern n j :
  (j < n)%nat -> nth j (handshake_pattern n) 0 = Z.of_nat j mod 256.
Proof.
  intros H. unfold handshake_pattern.
  rewrite nth_indep with (d' := (fun i => Z.of_nat i mod 256) 0%nat)
    by (rewrite length_map, length_seq; exact H).
  rewrite (map_nth (fun i => Z.of_nat i mod 256)).
  rewrite seq_nth by exact H. reflexivity.
Qed.



(** ** Handshake worker: cancellation and the callback *)

(** Reads that time out under a clear flag keep the loop going. *)
Lemma handshake_wait_timeouts cancel ts : forall k rest read buf,
  Forall timed_out ts ->
  (forall j, (j < List.length ts)%nat -> cancel (k + j)%nat = false) ->
  handshake_wait cancel k false (ts ++ rest) LIBUSB_ERROR_TIMEOUT read buf =
  handshake_wait cancel (k + List.length ts) false rest LIBUSB_ERROR_TIMEOUT
    (fst (drained ts read buf)) (snd (drained ts read buf)).
Proof.
  induction ts as [|t ts IH]; intros k rest read buf Hts Hc.
  - simpl. now rewrite Nat.add_0_r.
  - inversion Hts as [|? ? Ht Hts']; subst.
    pose proof (Hc 0%nat ltac:(simpl; lia)) as Hk.
    rewrite Nat.add_0_r in Hk.
    cbn [app handshake_wait]. rewrite Hk. cbn [orb].
    rewrite Z.eqb_refl. cbn [negb].
    unfold timed_out in Ht. rewrite Ht.
    rewrite IH; [| exact Hts' |].
    + cbn [List.length].
      replace (S k + List.length ts)%nat with (k + S (List.length ts))%nat by lia.
      reflexivity.
    + intros j Hj. replace (S k + j)%nat with (k + S j)%nat by lia.
      apply Hc. simpl. lia.
Qed.

(** C8. After the flush, let the reads [ts] time out with no
    cancellation seen.  If the next look at the flag finds it set, the
    worker ends without any callback and leaves the handshake flag alone.
    If instead the flag stays clear and the next read [r] does not time
    out, the worker ends with exactly one callback, whose argument is the
    verdict on that read, also stored in the handshake flag. *)
Theorem handshake_callback (env : recv_env) (d : MayaUsbDevice)
  (ts rest : list Bulk.result) (buf : bytes) :
  flushInputBuffer d (incoming env) (scratch env) = Some ((ts ++ rest)%list, buf) ->
  Forall timed_out ts ->
  (forall j, (j < List.length ts)%nat -> ext_cancel env j = false) ->
  (ext_cancel env (List.length ts) = true ->
   exists f, handshake_worker env d = Exited f /\ calls f = [] /\ after f = d)
  /\ (forall r rest',
        rest = r :: rest' ->
        Bulk.status r <> LIBUSB_ERROR_TIMEOUT ->
        ext_cancel env (List.length ts) = false ->
        ext_cancel env (S (List.length ts)) = false ->
        let success :=
          handshake_success (Bulk.transferred r) (Bulk.fill (snd (drained ts 0 buf)) r) in
        exists f, handshake_worker env d = Exited f
                  /\ calls f = [success]
                  /\ after f = set_handshake success d).
Proof.
  intros Hflush Hts Hclear.
  unfold handshake_worker. rewrite Hflush.
  rewrite handshake_wait_timeouts by assumption.
  cbn [Nat.add].
  split.
  - intros Hset.
    destruct rest as [|r rest']; cbn [handshake_wait]; rewrite Hset; cbn [orb];
      (eexists; split; [reflexivity|]; split; reflexivity).
  - intros r rest' -> Hr Hk HSk.
    cbn [handshake_wait]. rewrite Hk. cbn [orb].
    rewrite Z.eqb_refl. cbn [negb].
    destruct rest' as [|r' rest'']; cbn [handshake_wait]; rewrite HSk; cbn [orb];
      (destruct (Z.eqb_spec (Bulk.status r) LIBUSB_ERROR_TIMEOUT) as [E|E];
       [contradiction|]; cbn [negb];
       eexists; split; [reflexivity|]; split; reflexivity).
Qed.

(** C8 on the two runs. *)
Lemma handshake_callback_witness :
  (exists f, handshake_worker abandoned attached = Exited f /\ calls f = [] /\ after f = attached)
  /\ (exists f, handshake_worker answered attached = Exited f /\ calls f = [false]).
Proof.
  split.
  - apply (proj1 (handshake_callback abandoned attached [timeout_read; timeout_read] []
                    [9; 9; 9; 9] eq_refl
                    ltac:(repeat constructor)
                    ltac:(intros j Hj; do 2 (destruct j as [|j]; [reflexivity|]); simpl in Hj; lia))).
    reflexivity.
  - destruct (proj2 (handshake_callback answered attached [timeout_read; timeout_read]
                       [Bulk.mkResult 0 [0; 1; 2]] [9; 9; 9; 9] eq_refl
                       ltac:(repeat constructor)
                       ltac:(intros j Hj; reflexivity))
                _ _ eq_refl ltac:(simpl; discriminate) eq_refl eq_refl) as [f [Hf [Hcalls _]]].
    exists f. split; [exact Hf|]. rewrite Hcalls. reflexivity.
Defined.

(** ** Frame submission *)

Section SubmissionFacts.
Context {ext : Collaborators}.

(** C3. A submission that does not get the lock, or gets it while a
    frame is pending, is dropped and changes nothing.  A submission is
    accepted only with the lock and with no frame pending; it then has
    staged the frame, recorded width and halved height, and set the
    ready flag.  With the lock, no frame pending and a supported format
    the submission is accepted. *)
Theorem sendStereo_drops_or_stages (try_lock : bool) (data : PixelData)
  (desc : MTextureDescription) (d : MayaUsbDevice) :
  (try_lock = false \/ _sendReady d = true ->
   sendStereo try_lock data desc d = (false, d))
  /\ (fst (sendStereo try_lock data desc d) = true ->
      try_lock = true /\ _sendReady d = false
      /\ let d' := snd (sendStereo try_lock data desc d) in
         _rgbImageBuffer d' = decomposed data desc d
         /\ _jpegBufferWidth d' = fWidth desc
         /\ _jpegBufferHeight d' = fHeight desc / 2
         /\ _sendReady d' = true)
  /\ (try_lock = true -> _sendReady d = false ->
      supportsRasterFormat (fFormat desc) = true ->
      fst (sendStereo try_lock data desc d) = true).
Proof.
  unfold sendStereo, decomposed, supportsRasterFormat.
  split; [|split].
  - intros [-> | Hr]; [reflexivity|].
    rewrite Hr. destruct try_lock; reflexivity.
  - destruct try_lock; [|discriminate].
    destruct (_sendReady d); [discriminate|]. cbn [negb].
    destruct (fFormat desc); cbn [fst snd]; try discriminate;
      intros _; repeat split; reflexivity.
  - intros -> -> Hf. cbn [negb].
    destruct (fFormat desc); [reflexivity | reflexivity | discriminate].
Qed.

End SubmissionFacts.

(** C3: two submissions in a row with the lock free (the second meets a
    pending frame), and one while the lock is held. *)
Lemma sendStereo_drops_or_stages_witness :
  fst (submit true [1; 2] frame_desc streaming) = true
  /\ (let pending := snd (submit true [1; 2] frame_desc streaming) in
      submit true [3; 4] frame_desc pending = (false, pending))
  /\ submit false [1; 2] frame_desc streaming = (false, streaming).
Proof.
  split; [|split].
  - apply (proj2 (proj2 (sendStereo_drops_or_stages (ext := stand_ins)
                           true [1; 2] frame_desc streaming)));
      reflexivity.
  - cbv zeta.
    apply (proj1 (sendStereo_drops_or_stages (ext := stand_ins) true [3; 4] frame_desc
                    (snd (submit true [1; 2] frame_desc streaming)))).
    right. reflexivity.
  - apply (proj1 (sendStereo_drops_or_stages (ext := stand_ins)
                    false [1; 2] frame_desc streaming)).
    left. reflexivity.
Defined.

(** ** The send loop: cancellation *)

Section CancelFacts.
Context {ext : Collaborators}.
Variable host : endianness.

(** C7. When the flag is found set after a wait, the worker makes one
    write of four zero bytes, whatever count that write stores, and
    returns: no callback was made, and nothing of the rest of the
    script is looked at. *)
Theorem send_loop_cancelled (t : tick) (rest : list tick) (flag : bool)
  (d : MayaUsbDevice) (out : list Bulk.write) :
  fst (fold_left ext_step (before t) (flag, d)) = true ->
  send_loop host (t :: rest) flag d out =
  Exited (mkFinished true []
            (out ++ [Bulk.mkWrite [0; 0; 0; 0] (written t 0%nat)])%list
            (snd (fold_left ext_step (before t) (flag, d)))).
Proof.
  intros H. cbn [send_loop]. rewrite H.
  rewrite orb_true_r. reflexivity.
Qed.

(** Every way out of the loop sets the flag. *)
Lemma send_loop_exit_flag script : forall flag d out f,
  send_loop host script flag d out = Exited f -> cancel_flag f = true.
Proof.
  induction script as [|t rest IH]; intros flag d out f H; [discriminate H|].
  cbn [send_loop] in H.
  destruct (negb (_sendReady (snd (fold_left ext_step (before t) (flag, d)))
                  || fst (fold_left ext_step (before t) (flag, d)))).
  - eapply IH, H.
  - destruct (fst (fold_left ext_step (before t) (flag, d))).
    + injection H as <-. reflexivity.
    + destruct (send_frame host (written t) _) as [[[d' ws] error]|]; [|discriminate H].
      destruct error.
      * injection H as <-. reflexivity.
      * eapply IH, H.
Qed.

(** C10. Whenever the body of the handshake worker, of the read-loop
    worker or of the send-loop worker has returned, the worker's
    cancellation flag holds true. *)
Theorem workers_end_cancelled :
  (forall env d f, handshake_worker env d = Exited f -> cancel_flag f = true)
  /\ (forall env d f, read_worker env d = Exited f -> cancel_flag f = true)
  /\ (forall script d f, send_worker host script d = Exited f -> cancel_flag f = true).
Proof.
  split; [|split].
  - intros env d f H. unfold handshake_worker in H.
    destruct (flushInputBuffer d (incoming env) (scratch env)) as [[rest buf]|];
      [|discriminate H].
    destruct (handshake_wait _ _ _ _ _ _ _) as [w|]; [|discriminate H].
    injection H as <-. unfold handshake_finish.
    destruct (cancelled w); reflexivity.
  - intros env d f H. unfold read_worker in H.
    destruct (read_wait _ _ _ _ _ _ _) as [[c cs]|]; [|discriminate H].
    injection H as <-. reflexivity.
  - intros script d f H. unfold send_worker in H.
    eapply send_loop_exit_flag, H.
Qed.

End CancelFacts.

(** ** Byte order *)

Lemma byte_of_div v n : 0 <= n -> byte_of v n = (v / 2 ^ (8 * n)) mod 256.
Proof.
  intros Hn. unfold byte_of.
  rewrite Z.shiftr_div_pow2 by lia.
  change 255 with (Z.ones 8). rewrite Z.land_ones by lia. reflexivity.
Qed.

Lemma byte_of_range v n : 0 <= n -> 0 <= byte_of v n < 256.
Proof. intros Hn. rewrite byte_of_div by exact Hn. apply Z.mod_pos_bound. lia. Qed.

(** Or-ing a value shifted past [lo] with [lo] is an addition. *)
Lemma lor_shiftl_add hi lo k :
  0 <= k -> 0 <= lo < 2 ^ k -> Z.lor (Z.shiftl hi k) lo = hi * 2 ^ k + lo.
Proof.
  intros Hk Hlo.
  rewrite Z.shiftl_mul_pow2 by exact Hk.
  rewrite <- Z.lxor_lor, <- Z.add_nocarry_lxor; try reflexivity.
  all: apply Z.bits_inj'; intros n Hn; rewrite Z.land_spec, Z.bits_0;
    destruct (Z.lt_ge_cases n k) as [Hlt|Hge];
    [ rewrite Z.mul_pow2_bits_low by lia; reflexivity
    | destruct (Z.eq_dec lo 0) as [->|Hne];
      [ rewrite Z.bits_0; apply andb_false_r
      | rewrite (Z.bits_above_log2 lo n); [apply andb_false_r | lia |];
        apply Z.log2_lt_pow2; [lia|];
        apply Z.lt_le_trans with (2 ^ k); [lia|];
        apply Z.pow_le_mono_r; lia ] ].
Qed.

Lemma bswap32_sum v :
  bswap32 v = byte_of v 0 * 2 ^ 24 + byte_of v 1 * 2 ^ 16 + byte_of v 2 * 2 ^ 8 + byte_of v 3.
Proof.
  unfold bswap32.
  pose proof (byte_of_range v 0 ltac:(lia)).
  pose proof (byte_of_range v 1 ltac:(lia)).
  pose proof (byte_of_range v 2 ltac:(lia)).
  pose proof (byte_of_range v 3 ltac:(lia)).
  rewrite (lor_shiftl_add (byte_of v 2) (byte_of v 3) 8) by lia.
  rewrite (lor_shiftl_add (byte_of v 1) _ 16) by lia.
  rewrite (lor_shiftl_add (byte_of v 0) _ 24) by lia.
  lia.
Qed.

(** On either host the bytes of the converted header, in address order,
    are the big-endian bytes of the value. *)
Lemma header_is_big_endian host v :
  object_bytes host (nativeToBig host v) = be32 v.
Proof.
  destruct host; [|reflexivity].
  unfold object_bytes, nativeToBig, be32.
  pose proof (byte_of_range v 0 ltac:(lia)).
  pose proof (byte_of_range v 1 ltac:(lia)).
  pose proof (byte_of_range v 2 ltac:(lia)).
  pose proof (byte_of_range v 3 ltac:(lia)).
  rewrite bswap32_sum.
  rewrite !(byte_of_div (_ + _)) by lia.
  change (8 * 0) with 0. change (8 * 1) with 8. change (8 * 2) with 16. change (8 * 3) with 24.
  generalize dependent (byte_of v 0). generalize dependent (byte_of v 1).
  generalize dependent (byte_of v 2). generalize dependent (byte_of v 3).
  intros b3 H3 b2 H2 b1 H1 b0 H0.
  change (2 ^ 0) with 1. change (2 ^ 8) with 256. change (2 ^ 16) with 65536.
  change (2 ^ 24) with 16777216.
  repeat f_equal; Z.div_mod_to_equations; lia.
Qed.

Lemma decode_be32_be32 v rest :
  0 <= v < 2 ^ 32 -> decode_be32 (be32 v ++ rest) = Some v.
Proof.
  intros Hv. unfold be32, decode_be32. cbn [app]. f_equal.
  rewrite !byte_of_div by lia.
  change (8 * 0) with 0. change (8 * 1) with 8. change (8 * 2) with 16. change (8 * 3) with 24.
  change (2 ^ 0) with 1. change (2 ^ 8) with 256. change (2 ^ 16) with 65536.
  change (2 ^ 24) with 16777216. change (2 ^ 32) with 4294967296 in Hv.
  Z.div_mod_to_equations. lia.
Qed.

(** ** The chunk loop *)

(** The loop condition fails once the counter has reached the size, and
    also once the counter has wrapped to a negative [int]. *)
Lemma send_chunks_exit fuel written k i jpeg size :
  0 <= size <= INT_MAX ->
  size <= i < 2 ^ 31 \/ - 2 ^ 31 <= i < 0 ->
  send_chunks (S fuel) written k i jpeg size = Some ([], false).
Proof.
  unfold INT_MAX. intros Hsize Hi. cbn [send_chunks].
  assert (size <= size_t i) as H.
  { destruct Hi as [Hi|Hi].
    - rewrite size_t_small; lia.
    - rewrite size_t_negative; lia. }
  destruct (Z.ltb_spec (size_t i) size); [lia | reflexivity].
Qed.

(** From offset [i] on, with enough fuel, the loop ends; each transfer
    hands over at most [BUFFER_LEN] bytes, and without a short write the
    transfers are the rest of the JPEG in order. *)
Lemma send_chunks_run written jpeg size fuel : forall k i,
  size = Z.of_nat (List.length jpeg) ->
  size <= INT_MAX ->
  0 <= i < size ->
  (size - i) / BUFFER_LEN + 2 <= Z.of_nat fuel ->
  exists ws error,
    send_chunks fuel written k i jpeg size = Some (ws, error)
    /\ Forall fits ws
    /\ (error = false ->
        List.concat (map Bulk.buffer ws) = skipn (Z.to_nat i) jpeg /\ Forall complete ws).
Proof.
  unfold INT_MAX, BUFFER_LEN.
  induction fuel as [|fuel IH]; intros k i Hsize Hmax Hi Hfuel.
  - exfalso. assert (0 <= (size - i) / 16384) by (apply Z.div_pos; lia). lia.
  - cbn [send_chunks].
    rewrite (size_t_small i) by lia.
    destruct (Z.ltb_spec i size) as [_|]; [|lia].
    rewrite (size_t_small (size - i)) by lia.
    set (chunk := Z.min BUFFER_LEN (size - i)).
    assert (0 < chunk <= 16384 /\ chunk <= size - i) as Hchunk
      by (unfold chunk, BUFFER_LEN; lia).
    assert (chunk = 16384 \/ chunk = size - i) as Hcases
      by (unfold chunk, BUFFER_LEN; lia).
    clearbody chunk.
    rewrite (int32_small chunk) by lia.
    set (w := Bulk.mkWrite (firstn (Z.to_nat chunk) (skipn (Z.to_nat i) jpeg)) (written k)).
    assert (Z.of_nat (List.length (Bulk.buffer w)) = chunk) as Hlen.
    { unfold w. cbn [Bulk.buffer]. rewrite length_firstn, length_skipn. lia. }
    assert (Bulk.sent w = written k) as Hsent by reflexivity.
    assert (Bulk.buffer w = firstn (Z.to_nat chunk) (skipn (Z.to_nat i) jpeg)) as Hbuf
      by reflexivity.
    clearbody w.
    assert (fits w) as Hfits by (unfold fits, BUFFER_LEN; lia).
    destruct (Z.ltb_spec (written k) chunk) as [Hshort|Hfull].
    + exists [w], true. split; [reflexivity|]. split; [now constructor|discriminate].
    + destruct (Z.lt_ge_cases (i + 16384) size) as [Hmore|Hlast].
      * unfold BUFFER_LEN. rewrite (int32_small (i + 16384)) by lia.
        destruct (IH (S k) (i + 16384)) as [ws [error [Hrun [Hall Hok]]]]; try lia.
        { Z.div_mod_to_equations. lia. }
        rewrite Hrun.
        exists (w :: ws), error. split; [reflexivity|]. split; [now constructor|].
        intros He. destruct (Hok He) as [Hcat Hcomplete]. split.
        -- cbn [map List.concat]. rewrite Hcat, Hbuf.
           assert (chunk = 16384) as -> by lia.
           rewrite Z2Nat.inj_add by lia. rewrite Nat.add_comm, <- skipn_skipn.
           apply firstn_skipn.
        -- constructor; [unfold complete; lia | exact Hcomplete].
      * assert (send_chunks fuel written (S k) (int32 (i + BUFFER_LEN)) jpeg size
                = Some ([], false)) as Hrun.
        { destruct fuel as [|fuel].
          - exfalso. assert (0 <= (size - i) / 16384) by (apply Z.div_pos; lia). lia.
          - apply send_chunks_exit; [unfold INT_MAX; lia|]. unfold BUFFER_LEN.
            destruct (Z.lt_ge_cases (i + 16384) (2 ^ 31)).
            + left. rewrite int32_small by lia. lia.
            + right. rewrite int32_wraps by lia. lia. }
        rewrite Hrun.
        exists [w], false. split; [reflexivity|]. split; [now constructor|].
        intros _. split.
        -- cbn [map List.concat]. rewrite app_nil_r, Hbuf.
           apply firstn_all2. rewrite length_skipn. lia.
        -- constructor; [unfold complete; lia | constructor].
Qed.

(** ** One frame on the wire *)

Lemma on_wire_complete w : complete w -> Bulk.on_wire w = Bulk.buffer w.
Proof.
  unfold complete, Bulk.on_wire. intros H. apply firstn_all2. lia.
Qed.

Lemma transmitted_complete ws :
  Forall complete ws -> transmitted ws = List.concat (map Bulk.buffer ws).
Proof.
  unfold transmitted. induction 1 as [|w ws Hw _ IH]; [reflexivity|].
  cbn [map List.concat]. now rewrite IH, on_wire_complete.
Qed.

(** [chunk_fuel] is enough for any size: the counter runs through the
    multiples of 16384 and wraps after 2^17 rounds at the latest. *)
Lemma send_chunks_total written jpeg size :
  0 <= size < 2 ^ 63 ->
  forall fuel m k,
    0 <= m < 2 ^ 17 ->
    (1 <= fuel)%nat ->
    (Z.min size (2 ^ 31) - 16384 * m) / 16384 + 2 <= Z.of_nat fuel ->
    send_chunks fuel written k (16384 * m) jpeg size <> None.
Proof.
  intros Hsize.
  induction fuel as [|fuel IH]; intros m k Hm H1 Hfuel; [lia|].
  cbn [send_chunks].
  change (2 ^ 17) with 131072 in Hm.
  rewrite (size_t_small (16384 * m)) by lia.
  destruct (Z.ltb_spec (16384 * m) size) as [Hlt|]; [|discriminate].
  match goal with |- context [written k <? ?c] => destruct (written k <? c) end;
    [discriminate|].
  assert (send_chunks fuel written (S k) (int32 (16384 * m + BUFFER_LEN)) jpeg size <> None)
    as Hrec.
  { unfold BUFFER_LEN.
    destruct (Z.lt_ge_cases (m + 1) 131072) as [Hin|Hout].
    - rewrite int32_small by lia.
      replace (16384 * m + 16384) with (16384 * (m + 1)) by lia.
      apply IH.
      + change (2 ^ 17) with 131072. lia.
      + assert (0 <= (Z.min size (2 ^ 31) - 16384 * m) / 16384) by (apply Z.div_pos; lia).
        lia.
      + Z.div_mod_to_equations. lia.
    - assert (m = 131071) as -> by lia.
      change (int32 (16384 * 131071 + 16384)) with (- 2 ^ 31).
      destruct fuel as [|fuel].
      + exfalso.
        assert (0 <= (Z.min size (2 ^ 31) - 16384 * 131071) / 16384)
          by (apply Z.div_pos; lia).
        lia.
      + cbn [send_chunks]. rewrite size_t_negative by lia.
        destruct (Z.ltb_spec (- 2 ^ 31 + 2 ^ 64) size); [lia | discriminate]. }
  destruct (send_chunks fuel written (S k) (int32 (16384 * m + BUFFER_LEN)) jpeg size)
    as [[ws error]|]; [discriminate | contradiction].
Qed.

(** The loop reports an error exactly when some transfer stored less
    than it was handed. *)
Lemma send_chunks_error written jpeg size fuel : forall k i ws error,
  size = Z.of_nat (List.length jpeg) ->
  size <= INT_MAX ->
  0 <= i < size ->
  send_chunks fuel written k i jpeg size = Some (ws, error) ->
  error = false <->
  (forall n, i + 16384 * Z.of_nat n < size ->
             Z.min 16384 (size - (i + 16384 * Z.of_nat n)) <= written (k + n)%nat).
Proof.
  unfold INT_MAX.
  induction fuel as [|fuel IH]; intros k i ws error Hsize Hmax Hi H; [discriminate H|].
  cbn [send_chunks] in H.
  rewrite (size_t_small i) in H by lia.
  destruct (Z.ltb_spec i size) as [_|]; [|lia].
  rewrite (size_t_small (size - i)) in H by lia.
  unfold BUFFER_LEN in H.
  rewrite (int32_small (Z.min 16384 (size - i))) in H by lia.
  destruct (Z.ltb_spec (written k) (Z.min 16384 (size - i))) as [Hshort|Hfull].
  { injection H as _ <-. split; [discriminate|].
    intros Hall. specialize (Hall 0%nat). rewrite Nat.add_0_r in Hall.
    cbn [Z.of_nat] in Hall. rewrite Z.mul_0_r, Z.add_0_r in Hall. lia. }
  destruct (send_chunks fuel written (S k) (int32 (i + 16384)) jpeg size)
    as [[ws' error']|] eqn:Hrec; [|discriminate H].
  injection H as _ <-.
  destruct (Z.lt_ge_cases (i + 16384) size) as [Hmore|Hlast].
  - rewrite (int32_small (i + 16384)) in Hrec by lia.
    rewrite (IH (S k) (i + 16384) ws' error' Hsize ltac:(lia) ltac:(lia) Hrec).
    split.
    + intros Hall n Hn. destruct n as [|n].
      * rewrite Nat.add_0_r. cbn [Z.of_nat]. rewrite Z.mul_0_r, Z.add_0_r. exact Hfull.
      * replace (k + S n)%nat with (S k + n)%nat by lia.
        replace (i + 16384 * Z.of_nat (S n)) with (i + 16384 + 16384 * Z.of_nat n) in * by lia.
        now apply Hall.
    + intros Hall n Hn.
      replace (S k + n)%nat with (k + S n)%nat by lia.
      replace (i + 16384 + 16384 * Z.of_nat n) with (i + 16384 * Z.of_nat (S n)) in * by lia.
      now apply Hall.
  - assert (error' = false) as ->.
    { destruct fuel as [|fuel]; [discriminate Hrec|].
      rewrite send_chunks_exit in Hrec.
      - now injection Hrec as _ <-.
      - unfold INT_MAX. lia.
      - destruct (Z.lt_ge_cases (i + 16384) (2 ^ 31)).
        + left. rewrite int32_small by lia. lia.
        + right. rewrite int32_wraps by lia. lia. }
    split; [|reflexivity].
    intros _ n Hn. destruct n as [|n]; [|lia].
    rewrite Nat.add_0_r. cbn [Z.of_nat]. rewrite Z.mul_0_r, Z.add_0_r. exact Hfull.
Qed.

(** Whatever happens, the chunks handed over are consecutive pieces of
    the JPEG, from the start. *)
Lemma send_chunks_prefix written jpeg size fuel : forall k i ws error,
  size = Z.of_nat (List.length jpeg) ->
  size <= INT_MAX ->
  0 <= i < size ->
  send_chunks fuel written k i jpeg size = Some (ws, error) ->
  exists rest, skipn (Z.to_nat i) jpeg = (List.concat (map Bulk.buffer ws) ++ rest)%list.
Proof.
  unfold INT_MAX.
  induction fuel as [|fuel IH]; intros k i ws error Hsize Hmax Hi H; [discriminate H|].
  cbn [send_chunks] in H.
  rewrite (size_t_small i) in H by lia.
  destruct (Z.ltb_spec i size) as [_|]; [|lia].
  rewrite (size_t_small (size - i)) in H by lia.
  unfold BUFFER_LEN in H.
  rewrite (int32_small (Z.min 16384 (size - i))) in H by lia.
  destruct (written k <? Z.min 16384 (size - i)).
  { injection H as <- _. cbn [map List.concat Bulk.buffer]. rewrite app_nil_r.
    eexists. symmetry. apply firstn_skipn. }
  destruct (send_chunks fuel written (S k) (int32 (i + 16384)) jpeg size)
    as [[ws' error']|] eqn:Hrec; [|discriminate H].
  injection H as <- _. cbn [map List.concat Bulk.buffer].
  destruct (Z.lt_ge_cases (i + 16384) size) as [Hmore|Hlast].
  - rewrite (int32_small (i + 16384)) in Hrec by lia.
    destruct (IH (S k) (i + 16384) ws' error' Hsize ltac:(lia) ltac:(lia) Hrec)
      as [rest Hrest].
    exists rest. rewrite <- app_assoc, <- Hrest.
    rewrite Z.min_l by lia.
    rewrite Z2Nat.inj_add by lia. rewrite Nat.add_comm, <- skipn_skipn.
    symmetry. apply firstn_skipn.
  - assert (ws' = []) as ->.
    { destruct fuel as [|fuel]; [discriminate Hrec|].
      rewrite send_chunks_exit in Hrec.
      - now injection Hrec as <- _.
      - unfold INT_MAX. lia.
      - destruct (Z.lt_ge_cases (i + 16384) (2 ^ 31)).
        + left. rewrite int32_small by lia. lia.
        + right. rewrite int32_wraps by lia. lia. }
    cbn [map List.concat]. rewrite app_nil_r.
    eexists. symmetry. apply firstn_skipn.
Qed.

Section FrameFacts.
Context {ext : Collaborators}.
Variable host : endianness.

(** An iteration of the send loop always comes to an end. *)
Lemma send_frame_total written d :
  Z.of_nat (List.length (tjCompress2 (_rgbImageBuffer d) (_jpegBufferWidth d)
                           (_jpegBufferHeight d))) < 2 ^ 63 ->
  send_frame host written d <> None.
Proof.
  intros Hlen. unfold send_frame. cbn [_jpegBufferSize _jpegBuffer set_jpeg].
  destruct (size_t (written 0%nat) <? 4); [discriminate|].
  set (jpeg := tjCompress2 _ _ _) in *.
  rewrite (size_t_small (Z.of_nat (List.length jpeg))) by lia.
  pose proof (send_chunks_total written jpeg (Z.of_nat (List.length jpeg))
                ltac:(lia) (chunk_fuel (Z.of_nat (List.length jpeg))) 0 1%nat) as H.
  change (16384 * 0) with 0 in H.
  destruct (send_chunks _ written 1 0 jpeg _) as [[ws error]|]; [discriminate|].
  exfalso. apply H; [lia | unfold chunk_fuel; lia | |reflexivity].
  unfold chunk_fuel, BUFFER_LEN. rewrite Z.sub_0_r.
  assert (0 <= Z.min (Z.of_nat (List.length jpeg)) (2 ^ 31) / 16384) by (apply Z.div_pos; lia).
  lia.
Qed.

(** What one encode-and-send iteration does, for a JPEG that fits the
    loop counter: the header transfer comes first; the chunks are
    consecutive pieces of the JPEG; the error flag is clear exactly when
    every transfer stored at least the count it was handed, and then the
    chunks are the whole JPEG. *)
Lemma send_frame_outcome written d :
  let jpeg := tjCompress2 (_rgbImageBuffer d) (_jpegBufferWidth d) (_jpegBufferHeight d) in
  let size := Z.of_nat (List.length jpeg) in
  size <= INT_MAX ->
  (forall k, 0 <= written k <= INT_MAX) ->
  exists chunks error,
    send_frame host written d
    = Some (set_jpeg jpeg size d, Bulk.mkWrite (be32 size) (written 0%nat) :: chunks, error)
    /\ Forall fits chunks
    /\ (error = false <-> all_written written size)
    /\ (exists rest, jpeg = (List.concat (map Bulk.buffer chunks) ++ rest)%list)
    /\ (error = false ->
        List.concat (map Bulk.buffer chunks) = jpeg /\ Forall complete chunks).
Proof.
  intros jpeg size Hmax Hwritten.
  assert (0 <= size <= 2 ^ 31 - 1) as Hsize by (unfold size, INT_MAX in *; lia).
  unfold send_frame. fold jpeg. cbn [_jpegBufferSize _jpegBuffer set_jpeg]. fold size.
  rewrite (size_t_small size) by lia.
  unfold uint32. rewrite (wrap_small 32 size) by lia.
  rewrite header_is_big_endian.
  pose proof (Hwritten 0%nat) as Hw0. unfold INT_MAX in Hw0.
  rewrite (size_t_small (written 0%nat)) by lia.
  destruct (Z.ltb_spec (written 0%nat) 4) as [Hshort|Hfull].
  { exists [], true. split; [reflexivity|]. split; [constructor|].
    split; [split; [discriminate | intros [H _]; lia]|].
    split; [now exists jpeg | discriminate]. }
  destruct (Z.eq_dec size 0) as [Hz|Hnz].
  { exists [], false. split.
    - unfold chunk_fuel. rewrite send_chunks_exit by (unfold INT_MAX; lia). reflexivity.
    - assert (jpeg = []) as Hnil
        by (destruct jpeg; [reflexivity | unfold size in Hz; simpl in Hz; lia]).
      split; [constructor|].
      split; [split; [intros _ | reflexivity]|].
      + split; [exact Hfull|]. intros n Hn. unfold BUFFER_LEN in Hn. lia.
      + split; [exists []; now rewrite Hnil|].
        intros _. split; [now rewrite Hnil | constructor]. }
  destruct (send_chunks_run written jpeg size (chunk_fuel size) 1 0)
    as [ws [error [Hrun [Hfits Hok]]]]; try reflexivity; try (unfold INT_MAX; lia).
  { unfold chunk_fuel, BUFFER_LEN. rewrite Z.sub_0_r.
    rewrite Z.min_l by lia.
    assert (0 <= size / 16384) by (apply Z.div_pos; lia). lia. }
  rewrite Hrun. exists ws, error. split; [reflexivity|]. split; [exact Hfits|].
  pose proof (send_chunks_error written jpeg size _ 1%nat 0 ws error eq_refl
                ltac:(unfold INT_MAX; lia) ltac:(lia) Hrun) as Herr.
  destruct (send_chunks_prefix written jpeg size _ 1%nat 0 ws error eq_refl
              ltac:(unfold INT_MAX; lia) ltac:(lia) Hrun) as [rest Hrest].
  split; [|split; [now exists rest | exact Hok]].
  rewrite Herr. unfold all_written, chunk_size, BUFFER_LEN. split.
  - intros H. split; [exact Hfull|]. intros n Hn.
    specialize (H n). cbn [Nat.add] in H. rewrite Z.add_0_l in H. now apply H.
  - intros [_ H] n Hn. rewrite Z.add_0_l in *. cbn [Nat.add]. now apply H.
Qed.

(** C2. For a frame whose JPEG fits the [int] loop counter, the send
    iteration first writes a four-byte header that is the big-endian
    encoding of the JPEG's byte length, then writes chunks of at most
    16384 bytes each, consecutive pieces of the JPEG from its start.  It
    reports no error exactly when every transfer stored at least the
    count it was handed; the chunks are then the whole JPEG, and a
    receiver that decodes the header and reads that many bytes gets the
    JPEG back.  The JPEG is what the compressor left in the buffer, with
    the size it reported: the code does not look at the compressor's
    return value, and a failed compression is not part of this
    statement. *)
Theorem send_frame_round_trip (written : nat -> Z) (d : MayaUsbDevice) :
  let jpeg := tjCompress2 (_rgbImageBuffer d) (_jpegBufferWidth d) (_jpegBufferHeight d) in
  let size := Z.of_nat (List.length jpeg) in
  size <= INT_MAX ->
  (forall k, 0 <= written k <= INT_MAX) ->
  exists d' header chunks error,
    send_frame host written d = Some (d', header :: chunks, error)
    /\ _jpegBuffer d' = jpeg
    /\ Bulk.buffer header = be32 size
    /\ decode_be32 (Bulk.buffer header) = Some size
    /\ Forall fits chunks
    /\ (exists rest, jpeg = (List.concat (map Bulk.buffer chunks) ++ rest)%list)
    /\ (error = false <-> all_written written size)
    /\ (error = false ->
        List.concat (map Bulk.buffer chunks) = jpeg
        /\ transmitted (header :: chunks) = (be32 size ++ jpeg)%list
        /\ decode_frame (transmitted (header :: chunks)) = Some jpeg).
Proof.
  intros jpeg size Hmax Hwritten.
  assert (0 <= size <= 2 ^ 31 - 1) as Hsize by (unfold size, INT_MAX in *; lia).
  destruct (send_frame_outcome written d Hmax Hwritten)
    as [chunks [error [Hrun [Hfits [Herr [Hprefix Hok]]]]]].
  fold jpeg size in Hrun, Herr, Hprefix, Hok.
  exists (set_jpeg jpeg size d), (Bulk.mkWrite (be32 size) (written 0%nat)), chunks, error.
  split; [exact Hrun|]. split; [reflexivity|]. split; [reflexivity|].
  split.
  { cbn [Bulk.buffer]. rewrite <- (app_nil_r (be32 size)). apply decode_be32_be32. lia. }
  split; [exact Hfits|]. split; [exact Hprefix|]. split; [exact Herr|].
  intros He. destruct (Hok He) as [Hcat Hcomplete].
  assert (4 <= written 0%nat) as Hw0 by (apply Herr in He; apply He).
  assert (transmitted (Bulk.mkWrite (be32 size) (written 0%nat) :: chunks)
          = (be32 size ++ jpeg)%list) as Hwire.
  { rewrite transmitted_complete.
    - cbn [map List.concat Bulk.buffer]. now rewrite Hcat.
    - constructor; [|exact Hcomplete]. unfold complete. cbn. lia. }
  split; [exact Hcat|]. split; [exact Hwire|].
  rewrite Hwire. unfold decode_frame.
  rewrite decode_be32_be32 by lia.
  change (skipn 4 (be32 size ++ jpeg)) with jpeg. fold size.
  destruct (Z.ltb_spec size size); [lia|].
  f_equal. apply firstn_all2. unfold size. lia.
Qed.

End FrameFacts.

(** ** The send path on a concrete run *)

(** The stand-in compressor turns the wide frame into 20000 bytes. *)
Lemma wide_frame_size :
  Z.of_nat (List.length (tjCompress2 (Collaborators := stand_ins)
                           (_rgbImageBuffer wide_staged) (_jpegBufferWidth wide_staged)
                           (_jpegBufferHeight wide_staged))) = 20000.
Proof.
  change (tjCompress2 (Collaborators := stand_ins) (_rgbImageBuffer wide_staged)
            (_jpegBufferWidth wide_staged) (_jpegBufferHeight wide_staged))
    with (repeat 255 (Z.to_nat 20000)).
  rewrite repeat_length. apply Z2Nat.id. lia.
Qed.

Lemma wide_writes_range k : 0 <= wide_writes k <= INT_MAX.
Proof.
  unfold INT_MAX. destruct k as [|[|k]]; cbn [wide_writes]; lia.
Qed.

Lemma wide_writes_complete : all_written wide_writes 20000.
Proof.
  split; [cbn; lia|].
  intros n Hn. unfold chunk_size, BUFFER_LEN in *.
  destruct n as [|[|n]]; cbn [wide_writes]; lia.
Qed.

Lemma cut_writes_range k : 0 <= cut_writes k <= INT_MAX.
Proof.
  unfold INT_MAX. destruct k as [|[|k]]; cbn [cut_writes]; lia.
Qed.

Lemma cut_writes_fall_short : ~ all_written cut_writes 20000.
Proof.
  intros [_ H]. specialize (H 1%nat). unfold chunk_size, BUFFER_LEN in H.
  cbn [cut_writes] in H. lia.
Qed.

(** C2 on a frame of 20000 bytes: with every write complete the JPEG
    goes out in more than one chunk and the receiver gets it back; with
    the second chunk cut short the iteration reports the error. *)
Lemma send_frame_round_trip_witness :
  (exists d' header chunks,
     send_frame (ext := stand_ins) LittleEndian wide_writes wide_staged
     = Some (d', header :: chunks, false)
     /\ Bulk.buffer header = be32 20000
     /\ (2 <= List.length chunks)%nat
     /\ decode_frame (transmitted (header :: chunks)) = Some (_jpegBuffer d'))
  /\ (exists d' ws,
        send_frame (ext := stand_ins) LittleEndian cut_writes wide_staged
        = Some (d', ws, true)).
Proof.
  split.
  - destruct (send_frame_round_trip (ext := stand_ins) LittleEndian wide_writes wide_staged)
      as [d' [header [chunks [error [Hrun [Hjpeg [Hheader [_ [Hfits [_ [Herr Hok]]]]]]]]]]].
    + rewrite wide_frame_size. unfold INT_MAX. lia.
    + exact wide_writes_range.
    + rewrite wide_frame_size in Herr, Hheader.
      assert (error = false) as -> by (apply Herr; exact wide_writes_complete).
      destruct (Hok eq_refl) as [Hcat [_ Hdecode]].
      exists d', header, chunks.
      split; [exact Hrun|]. split; [exact Hheader|].
      split; [|rewrite Hjpeg; exact Hdecode].
      apply (f_equal (@List.length Z)) in Hcat.
      apply (f_equal Z.of_nat) in Hcat.
      rewrite wide_frame_size in Hcat.
      destruct chunks as [|c [|c' cs]].
      * cbn [map List.concat List.length] in Hcat. lia.
      * cbn [map List.concat] in Hcat. rewrite app_nil_r in Hcat.
        inversion Hfits as [|? ? Hc _]. unfold fits, BUFFER_LEN in Hc. lia.
      * cbn [List.length]. lia.
  - destruct (send_frame_round_trip (ext := stand_ins) LittleEndian cut_writes wide_staged)
      as [d' [header [chunks [error [Hrun [_ [_ [_ [_ [_ [Herr _]]]]]]]]]]].
    + rewrite wide_frame_size. unfold INT_MAX. lia.
    + exact cut_writes_range.
    + rewrite wide_frame_size in Herr.
      assert (error = true) as ->.
      { destruct error; [reflexivity|]. exfalso.
        apply cut_writes_fall_short, Herr. reflexivity. }
      now exists d', (header :: chunks).
Defined.

(** C7 on a worker that has sent one frame and is then cancelled while a
    further frame and a further tick are still to come: the run ends with
    the frame's two writes and the termination write. *)
Lemma send_loop_cancelled_witness :
  send_worker (ext := stand_ins) LittleEndian [frame_tick; cancel_tick; frame_tick] streaming
  = Exited (mkFinished true []
              [ Bulk.mkWrite [0; 0; 0; 6] 4;
                Bulk.mkWrite [255; 255; 255; 255; 255; 255] 6;
                Bulk.mkWrite [0; 0; 0; 0] 0 ]
              (set_sendReady false (set_jpeg [255; 255; 255; 255; 255; 255] 6 staged))).
Proof.
  pose proof (send_loop_cancelled (ext := stand_ins) LittleEndian cancel_tick [frame_tick]
                false (set_sendReady false (set_jpeg [255; 255; 255; 255; 255; 255] 6 staged))
                [ Bulk.mkWrite [0; 0; 0; 6] 4; Bulk.mkWrite [255; 255; 255; 255; 255; 255] 6 ]
                eq_refl) as H.
  exact H.
Defined.

(** C10 on five runs: a handshake abandoned, a handshake answered, a
    read loop that meets an error, a send loop cancelled and a send loop
    that meets a short write. *)
Lemma workers_end_cancelled_witness :
  (exists f, handshake_worker abandoned attached = Exited f /\ cancel_flag f = true)
  /\ (exists f, handshake_worker answered attached = Exited f /\ cancel_flag f = true)
  /\ (exists f, read_worker unplugged streaming = Exited f
                /\ calls f = [Some [1; 2]; None] /\ cancel_flag f = true)
  /\ (exists f, send_worker (ext := stand_ins) BigEndian [frame_tick; cancel_tick] streaming
                = Exited f /\ calls f = [] /\ cancel_flag f = true)
  /\ (exists f, send_worker (ext := stand_ins) BigEndian [broken_tick] streaming
                = Exited f /\ calls f = [tt] /\ cancel_flag f = true).
Proof.
  pose proof (workers_end_cancelled (ext := stand_ins) BigEndian) as [Hh [Hr Hs]].
  repeat split.
  - eexists. split; [reflexivity|]. apply (Hh abandoned attached). reflexivity.
  - eexists. split; [reflexivity|]. apply (Hh answered attached). reflexivity.
  - eexists. split; [reflexivity|]. split; [reflexivity|].
    apply (Hr unplugged streaming). reflexivity.
  - eexists. split; [reflexivity|]. split; [reflexivity|].
    apply (Hs [frame_tick; cancel_tick] streaming). reflexivity.
  - eexists. split; [reflexivity|]. split; [reflexivity|].
    apply (Hs [broken_tick] streaming). reflexivity.
Defined.

(** * Further properties *)

(** ** Construction: which device, which failures *)

Lemma open_first_split bus ids : forall id,
  open_first bus ids = Some id ->
  exists pre post,
    ids = (pre ++ id :: post)%list
    /\ opens bus id = true
    /\ forall x, In x pre -> opens bus x = false.
Proof.
  induction ids as [|c ids IH]; intros id H; [discriminate H|].
  cbn [open_first] in H. destruct (opens bus c) eqn:Hc.
  - injection H as <-. exists [], ids. repeat split; [exact Hc|]. intros x [].
  - destruct (IH id H) as [pre [post [-> [Hid Hpre]]]].
    exists (c :: pre), post. repeat split; [exact Hid|].
    intros x [<-|Hx]; [exact Hc | now apply Hpre].
Qed.

Lemma open_first_none bus ids :
  (forall x, In x ids -> opens bus x = false) -> open_first bus ids = None.
Proof.
  induction ids as [|c ids IH]; intros H; [reflexivity|].
  cbn [open_first]. rewrite (H c) by now left.
  apply IH. intros x Hx. apply H. now right.
Qed.

(** The endpoint loop writes the two endpoint members and nothing else. *)
Lemma enumerate_endpoints_frame eps : forall d,
  let d' := enumerate_endpoints eps d in
  _id d' = _id d /\ _manufacturer d' = _manufacturer d /\ _product d' = _product d
  /\ _handshake d' = _handshake d /\ _sendReady d' = _sendReady d
  /\ _rgbImageBuffer d' = _rgbImageBuffer d /\ _jpegBuffer d' = _jpegBuffer d.
Proof.
  unfold enumerate_endpoints.
  induction eps as [|e eps IH]; intros d; [cbn; repeat split|].
  cbn [fold_left]. specialize (IH (record_endpoint d e)). cbv zeta in IH |- *.
  assert (_id (record_endpoint d e) = _id d
          /\ _manufacturer (record_endpoint d e) = _manufacturer d
          /\ _product (record_endpoint d e) = _product d
          /\ _handshake (record_endpoint d e) = _handshake d
          /\ _sendReady (record_endpoint d e) = _sendReady d
          /\ _rgbImageBuffer (record_endpoint d e) = _rgbImageBuffer d
          /\ _jpegBuffer (record_endpoint d e) = _jpegBuffer d) as Hstep.
  { unfold record_endpoint.
    destruct (Z.land (bEndpointAddress e) 128 =? LIBUSB_ENDPOINT_IN);
      [|destruct (Z.land (bEndpointAddress e) 128 =? LIBUSB_ENDPOINT_OUT)];
      repeat split. }
  destruct IH as [I1 [I2 [I3 [I4 [I5 [I6 I7]]]]]].
  destruct Hstep as [S1 [S2 [S3 [S4 [S5 [S6 S7]]]]]].
  repeat split; congruence.
Qed.

(** Construction as a decision list over what the bus reports. *)
Lemma construct_cases bus raw ids :
  construct bus raw ids =
  match open_first bus ids with
  | None => inr (ThrowValue "Could not create device with given VIDs/PIDs")
  | Some id =>
    if device_descriptor_status bus <? 0
    then inr (ThrowValue "Could not get device descriptor")
    else if manufacturer_status bus <? 0
    then inr (ThrowValue "Could not get manufacturer string")
    else if product_status bus <? 0
    then inr (ThrowValue "Could not get product string")
    else if config_descriptor_status bus <? 0
    then inr (ThrowValue "Could not get configuration descriptor")
    else if claim_status bus <? 0
    then inr (ThrowValue "Could not claim interface")
    else inl (enumerate_endpoints (endpoints bus)
                (set_strings (manufacturerString bus) (productString bus)
                   (set_id id (set_jpeg [] (_jpegBufferSize raw)
                                 (set_sendReady false (set_handshake false raw))))))
  end.
Proof. reflexivity. Qed.

(** X1. The device that construction opens is the first candidate of
    the list that opens: every candidate before it was tried and did not
    open.  When no candidate opens, construction throws and nothing else
    is asked of the bus. *)
Theorem construct_opens_first_candidate (bus : Bus) (raw : MayaUsbDevice)
  (ids : list MayaUsbDeviceId) :
  (forall d, construct bus raw ids = inl d ->
     exists pre post,
       ids = (pre ++ _id d :: post)%list
       /\ opens bus (_id d) = true
       /\ forall x, In x pre -> opens bus x = false)
  /\ ((forall x, In x ids -> opens bus x = false) ->
      construct bus raw ids
      = inr (ThrowValue "Could not create device with given VIDs/PIDs")).
Proof.
  rewrite construct_cases. split.
  - intros d H.
    destruct (open_first bus ids) as [id|] eqn:Hopen; [|discriminate H].
    assert (_id d = id) as ->.
    { destruct (device_descriptor_status bus <? 0); [discriminate H|].
      destruct (manufacturer_status bus <? 0); [discriminate H|].
      destruct (product_status bus <? 0); [discriminate H|].
      destruct (config_descriptor_status bus <? 0); [discriminate H|].
      destruct (claim_status bus <? 0); [discriminate H|].
      injection H as <-.
      now rewrite (proj1 (enumerate_endpoints_frame (endpoints bus) _)). }
    now apply open_first_split.
  - intros H. now rewrite open_first_none.
Qed.

(** X1 on a bus where only the second default candidate opens. *)
Lemma construct_opens_first_candidate_witness :
  exists pre post,
    getAoapIds = (pre ++ mkId 0x18D1 0x2D01 :: post)%list
    /\ opens two_of_each (mkId 0x18D1 0x2D01) = true
    /\ forall x, In x pre -> opens two_of_each x = false.
Proof.
  exact (proj1 (construct_opens_first_candidate two_of_each stale getAoapIds)
           constructed eq_refl).
Defined.

(** X2. Construction succeeds exactly when some candidate opens and the
    device descriptor, both strings, the configuration descriptor and the
    interface claim all return a non-negative status. *)
Theorem construct_succeeds_iff (bus : Bus) (raw : MayaUsbDevice)
  (ids : list MayaUsbDeviceId) :
  (exists d, construct bus raw ids = inl d) <->
  (exists id, open_first bus ids = Some id)
  /\ 0 <= device_descriptor_status bus
  /\ 0 <= manufacturer_status bus
  /\ 0 <= product_status bus
  /\ 0 <= config_descriptor_status bus
  /\ 0 <= claim_status bus.
Proof.
  rewrite construct_cases.
  destruct (open_first bus ids) as [id|].
  2: { split; [intros [d H]; discriminate H | intros [[id H] _]; discriminate H]. }
  destruct (Z.ltb_spec (device_descriptor_status bus) 0) as [L1|L1].
  { split; [intros [d H]; discriminate H | intros [_ ?]; lia]. }
  destruct (Z.ltb_spec (manufacturer_status bus) 0) as [L2|L2].
  { split; [intros [d H]; discriminate H | intros [_ ?]; lia]. }
  destruct (Z.ltb_spec (product_status bus) 0) as [L3|L3].
  { split; [intros [d H]; discriminate H | intros [_ ?]; lia]. }
  destruct (Z.ltb_spec (config_descriptor_status bus) 0) as [L4|L4].
  { split; [intros [d H]; discriminate H | intros [_ ?]; lia]. }
  destruct (Z.ltb_spec (claim_status bus) 0) as [L5|L5].
  { split; [intros [d H]; discriminate H | intros [_ ?]; lia]. }
  split; [intros _ | intros _; eexists; reflexivity].
  repeat split; try assumption. now exists id.
Qed.

(** X3. Whatever the object's storage held, a constructed device has
    the handshake flag and the ready flag cleared, no JPEG buffer and the
    bus's two strings; the read loop and the send loop both refuse to
    start on it. *)
Theorem constructed_device_is_idle {ext : Collaborators} (host : endianness)
  (bus : Bus) (raw d : MayaUsbDevice) (ids : list MayaUsbDeviceId)
  (env : recv_env) (script : list tick) :
  construct bus raw ids = inl d ->
  _handshake d = false /\ _sendReady d = false /\ _jpegBuffer d = []
  /\ _manufacturer d = manufacturerString bus /\ _product d = productString bus
  /\ beginReadLoop env d = (false, None)
  /\ beginSendLoop host script d = (false, d, None).
Proof.
  rewrite construct_cases. intros H.
  destruct (open_first bus ids) as [id|]; [|discriminate H].
  destruct (device_descriptor_status bus <? 0); [discriminate H|].
  destruct (manufacturer_status bus <? 0); [discriminate H|].
  destruct (product_status bus <? 0); [discriminate H|].
  destruct (config_descriptor_status bus <? 0); [discriminate H|].
  destruct (claim_status bus <? 0); [discriminate H|].
  injection H as <-.
  destruct (enumerate_endpoints_frame (endpoints bus)
              (set_strings (manufacturerString bus) (productString bus)
                 (set_id id (set_jpeg [] (_jpegBufferSize raw)
                               (set_sendReady false (set_handshake false raw))))))
    as [_ [Hm [Hp [Hh [Hr [_ Hj]]]]]].
  cbv zeta in *.
  repeat split; try assumption.
  - unfold beginReadLoop. rewrite Hh.
    destruct (_inEndpoint _ =? 0); reflexivity.
  - unfold beginSendLoop. rewrite Hh.
    destruct (_outEndpoint _ =? 0); reflexivity.
Qed.

(** X3 on storage whose flags were set. *)
Lemma constructed_device_is_idle_witness :
  _handshake stale = true /\ _sendReady stale = true
  /\ exists d, construct two_of_each stale getAoapIds = inl d
               /\ _handshake d = false /\ _sendReady d = false
               /\ beginSendLoop (ext := stand_ins) LittleEndian [frame_tick] d
                  = (false, d, None).
Proof.
  split; [reflexivity|]. split; [reflexivity|].
  exists constructed. split; [reflexivity|].
  destruct (constructed_device_is_idle (ext := stand_ins) LittleEndian two_of_each stale
              constructed getAoapIds unplugged [frame_tick] eq_refl)
    as [Hh [Hr [_ [_ [_ [_ Hs]]]]]].
  split; [exact Hh|]. split; [exact Hr | exact Hs].
Defined.

(** ** The description *)

Lemma hex_digit_value_digit k : 0 <= k < 16 -> hex_digit_value (hex_digit k) = k.
Proof.
  intros H.
  assert (k = 0 \/ k = 1 \/ k = 2 \/ k = 3 \/ k = 4 \/ k = 5 \/ k = 6 \/ k = 7
          \/ k = 8 \/ k = 9 \/ k = 10 \/ k = 11 \/ k = 12 \/ k = 13 \/ k = 14 \/ k = 15)
    as Hk by lia.
  repeat (destruct Hk as [->|Hk]; [reflexivity|]). subst k. reflexivity.
Qed.

(** With the fill, a 16-bit number always comes out as its four digits. *)
Lemma put_hex16_digits v :
  put_hex16 v =
  map hex_digit [uint16 v / 4096; uint16 v / 256 mod 16; uint16 v / 16 mod 16;
                 uint16 v mod 16].
Proof.
  unfold put_hex16.
  assert (0 <= uint16 v < 65536) as Hu by (apply Z.mod_pos_bound; reflexivity).
  generalize dependent (uint16 v). intros u Hu.
  cbn [map hex_digits].
  destruct (Z.ltb_spec u 16) as [H1|H1].
  { replace (u / 4096) with 0 by (Z.div_mod_to_equations; lia).
    replace (u / 256 mod 16) with 0 by (Z.div_mod_to_equations; lia).
    replace (u / 16 mod 16) with 0 by (Z.div_mod_to_equations; lia).
    replace (u mod 16) with u by (Z.div_mod_to_equations; lia).
    reflexivity. }
  destruct (Z.ltb_spec (u / 16) 16) as [H2|H2].
  { replace (u / 4096) with 0 by (Z.div_mod_to_equations; lia).
    replace (u / 256 mod 16) with 0 by (Z.div_mod_to_equations; lia).
    replace (u / 16 mod 16) with (u / 16) by (Z.div_mod_to_equations; lia).
    reflexivity. }
  destruct (Z.ltb_spec (u / 16 / 16) 16) as [H3|H3].
  { replace (u / 4096) with 0 by (Z.div_mod_to_equations; lia).
    replace (u / 256 mod 16) with (u / 16 / 16) by (Z.div_mod_to_equations; lia).
    reflexivity. }
  destruct (Z.ltb_spec (u / 16 / 16 / 16) 16) as [H4|H4].
  { replace (u / 4096) with (u / 16 / 16 / 16) by (Z.div_mod_to_equations; lia).
    replace (u / 256 mod 16) with (u / 16 / 16 mod 16) by (Z.div_mod_to_equations; lia).
    reflexivity. }
  exfalso. Z.div_mod_to_equations. lia.
Qed.

Lemma hex_value_put_hex16 v : hex_value (put_hex16 v) = uint16 v.
Proof.
  rewrite put_hex16_digits.
  assert (0 <= uint16 v < 65536) as Hu by (apply Z.mod_pos_bound; reflexivity).
  generalize dependent (uint16 v). intros u Hu.
  unfold hex_value. cbn [map fold_left].
  rewrite !hex_digit_value_digit by (Z.div_mod_to_equations; lia).
  Z.div_mod_to_equations. lia.
Qed.

Lemma hex_digit_lower k : 0 <= k < 16 -> lower_hex (hex_digit k).
Proof.
  intros H.
  assert (k = 0 \/ k = 1 \/ k = 2 \/ k = 3 \/ k = 4 \/ k = 5 \/ k = 6 \/ k = 7
          \/ k = 8 \/ k = 9 \/ k = 10 \/ k = 11 \/ k = 12 \/ k = 13 \/ k = 14 \/ k = 15)
    as Hk by lia.
  unfold lower_hex.
  repeat (destruct Hk as [->|Hk]; [cbn; tauto|]). subst k. cbn. tauto.
Qed.

Lemma put_hex16_lower v : Forall lower_hex (put_hex16 v).
Proof.
  rewrite put_hex16_digits.
  assert (0 <= uint16 v < 65536) as Hu by (apply Z.mod_pos_bound; reflexivity).
  generalize dependent (uint16 v). intros u Hu.
  cbn [map].
  repeat (apply Forall_cons; [apply hex_digit_lower; Z.div_mod_to_equations; lia|]).
  apply Forall_nil.
Qed.

(** X4. The description is four lowercase hexadecimal digits, a colon,
    four lowercase hexadecimal digits, a space, the manufacturer, a
    space and the product.  Each group is the four digits of the 16-bit
    id, most significant first with leading zeros, so that read back as
    hexadecimal the groups are the vendor and product ids. *)
Theorem getDescription_format (d : MayaUsbDevice) :
  let digits u := map hex_digit [u / 4096; u / 256 mod 16; u / 16 mod 16; u mod 16] in
  exists v4 p4,
    List.length v4 = 4%nat /\ List.length p4 = 4%nat
    /\ Forall lower_hex v4 /\ Forall lower_hex p4
    /\ v4 = digits (uint16 (vid (_id d)))
    /\ p4 = digits (uint16 (pid (_id d)))
    /\ getDescription d
       = (string_of_list_ascii v4 ++ ":" ++ string_of_list_ascii p4 ++ " "
          ++ _manufacturer d ++ " " ++ _product d)%string
    /\ hex_value v4 = uint16 (vid (_id d))
    /\ hex_value p4 = uint16 (pid (_id d)).
Proof.
  intros digits.
  exists (put_hex16 (vid (_id d))), (put_hex16 (pid (_id d))).
  split; [rewrite put_hex16_digits; reflexivity|].
  split; [rewrite put_hex16_digits; reflexivity|].
  split; [apply put_hex16_lower|]. split; [apply put_hex16_lower|].
  split; [apply put_hex16_digits|]. split; [apply put_hex16_digits|].
  split; [reflexivity|].
  split; apply hex_value_put_hex16.
Qed.

(** The description of the accessory with debug bridge. *)
Lemma getDescription_example : getDescription constructed = "18d1:2d01 Acme Gadget"%string.
Proof. reflexivity. Qed.

(** ** The flush *)

Lemma flush_reads_through zs : forall r rest buf,
  Forall returned_zero zs ->
  Bulk.status r <> 0 ->
  flush_reads (zs ++ r :: rest) buf = Some (rest, filled (zs ++ [r]) buf).
Proof.
  induction zs as [|z zs IH]; intros r rest buf Hzs Hr.
  - cbn. destruct (Z.eqb_spec (Bulk.status r) 0); [contradiction | reflexivity].
  - inversion Hzs as [|? ? Hz Hzs']; subst. unfold returned_zero in Hz.
    cbn [app flush_reads]. rewrite Hz, Z.eqb_refl.
    rewrite IH by assumption. reflexivity.
Qed.

Lemma flush_reads_none incoming : forall buf,
  flush_reads incoming buf = None <-> Forall returned_zero incoming.
Proof.
  induction incoming as [|r rs IH]; intros buf.
  - split; [intros _; constructor | intros _; reflexivity].
  - cbn [flush_reads]. destruct (Z.eqb_spec (Bulk.status r) 0) as [E|E].
    + rewrite IH. split.
      * intros H. now constructor.
      * intros H. now inversion H.
    + split; [discriminate|]. intros H. inversion H. contradiction.
Qed.

(** X5. The flush reads on for as long as reads return 0: it takes the
    leading reads that returned 0 and the first one that did not, leaving
    the reads after it and a buffer holding what they wrote, and it has
    not returned within any series of reads that all return 0.  Without an
    IN endpoint it reads nothing. *)
Theorem flushInputBuffer_drains (d : MayaUsbDevice) (buf : bytes) :
  (_inEndpoint d <> 0 ->
   forall zs r rest,
     Forall returned_zero zs ->
     Bulk.status r <> 0 ->
     flushInputBuffer d (zs ++ r :: rest) buf = Some (rest, filled (zs ++ [r]) buf))
  /\ (_inEndpoint d <> 0 ->
      forall incoming,
        flushInputBuffer d incoming buf = None <-> Forall returned_zero incoming)
  /\ (_inEndpoint d = 0 ->
      forall incoming, flushInputBuffer d incoming buf = Some (incoming, buf)).
Proof.
  unfold flushInputBuffer.
  destruct (Z.eqb_spec (_inEndpoint d) 0) as [E|E]; cbn [negb].
  - split; [intros H; contradiction|]. split; [intros H; contradiction|].
    intros _ incoming. reflexivity.
  - split; [|split].
    + intros _ zs r rest Hzs Hr. now apply flush_reads_through.
    + intros _ incoming. apply flush_reads_none.
    + intros H. contradiction.
Qed.

(** X5 on two stale packets followed by a timeout and a later read. *)
Lemma flushInputBuffer_drains_witness :
  flushInputBuffer attached
    [Bulk.mkResult 0 [7; 7]; Bulk.mkResult 0 [8]; timeout_read; Bulk.mkResult 0 [1]]
    [9; 9; 9]
  = Some ([Bulk.mkResult 0 [1]], [8; 7; 9])
  /\ flushInputBuffer (set_inEndpoint 0 attached) [timeout_read] [9] = Some ([timeout_read], [9]).
Proof.
  split.
  - apply (proj1 (flushInputBuffer_drains attached [9; 9; 9]) ltac:(discriminate)
             [Bulk.mkResult 0 [7; 7]; Bulk.mkResult 0 [8]] timeout_read [Bulk.mkResult 0 [1]]).
    + repeat constructor.
    + discriminate.
  - apply (proj2 (proj2 (flushInputBuffer_drains (set_inEndpoint 0 attached) [9]))).
    reflexivity.
Defined.

(** ** The conversion: when it succeeds *)

(** X6. For a 16-bit version word, the conversion returns without
    throwing exactly when all eight transfers are accepted and the word
    lies between 1 and 32767; whatever the device answers, the requests
    issued are the first n of the conversation for some n from 1 to 8. *)
Theorem convertToAccessory_succeeds_iff (dev : Control.device) :
  0 <= Control.word (dev 0%nat) < 65536 ->
  (snd (convertToAccessory dev []) = inl tt <->
   (forall n, (n < 8)%nat -> 0 <= Control.status (dev n))
   /\ 1 <= Control.word (dev 0%nat) <= 32767)
  /\ exists n, (1 <= n <= 8)%nat
               /\ fst (convertToAccessory dev []) = firstn n AOAP.conversation.
Proof.
  intros Hw. rewrite convertToAccessory_cases. cbv beta zeta.
  assert (Control.word (dev 0%nat) < 32768 ->
          int16 (Control.word (dev 0%nat)) = Control.word (dev 0%nat)) as Hlow
    by (intros; apply int16_low; lia).
  assert (32768 <= Control.word (dev 0%nat) ->
          int16 (Control.word (dev 0%nat)) = Control.word (dev 0%nat) - 65536) as Hhigh
    by (intros; apply int16_high; lia).
  destruct (Z.ltb_spec (Control.status (dev 0%nat)) 0) as [F0|A0].
  { split; [|exists 1%nat; split; [lia | reflexivity]].
    split; [discriminate | intros [Hs _]; specialize (Hs 0%nat); lia]. }
  destruct (Z.ltb_spec (int16 (Control.word (dev 0%nat))) 1) as [V|V].
  { split; [|exists 1%nat; split; [lia | reflexivity]].
    split; [discriminate|]. intros [_ Hv]. rewrite Hlow in V; lia. }
  destruct (Z.ltb_spec (Control.status (dev 1%nat)) 0) as [F1|A1].
  { split; [|exists 2%nat; split; [lia | reflexivity]].
    split; [discriminate | intros [Hs _]; specialize (Hs 1%nat); lia]. }
  destruct (Z.ltb_spec (Control.status (dev 2%nat)) 0) as [F2|A2].
  { split; [|exists 3%nat; split; [lia | reflexivity]].
    split; [discriminate | intros [Hs _]; specialize (Hs 2%nat); lia]. }
  destruct (Z.ltb_spec (Control.status (dev 3%nat)) 0) as [F3|A3].
  { split; [|exists 4%nat; split; [lia | reflexivity]].
    split; [discriminate | intros [Hs _]; specialize (Hs 3%nat); lia]. }
  destruct (Z.ltb_spec (Control.status (dev 4%nat)) 0) as [F4|A4].
  { split; [|exists 5%nat; split; [lia | reflexivity]].
    split; [discriminate | intros [Hs _]; specialize (Hs 4%nat); lia]. }
  destruct (Z.ltb_spec (Control.status (dev 5%nat)) 0) as [F5|A5].
  { split; [|exists 6%nat; split; [lia | reflexivity]].
    split; [discriminate | intros [Hs _]; specialize (Hs 5%nat); lia]. }
  destruct (Z.ltb_spec (Control.status (dev 6%nat)) 0) as [F6|A6].
  { split; [|exists 7%nat; split; [lia | reflexivity]].
    split; [discriminate | intros [Hs _]; specialize (Hs 6%nat); lia]. }
  destruct (Z.ltb_spec (Control.status (dev 7%nat)) 0) as [F7|A7].
  { split; [|exists 8%nat; split; [lia | reflexivity]].
    split; [discriminate | intros [Hs _]; specialize (Hs 7%nat); lia]. }
  split; [|exists 8%nat; split; [lia | reflexivity]].
  split; [intros _ | reflexivity]. split.
  - intros n Hn. do 8 (destruct n as [|n]; [assumption|]). lia.
  - destruct (Z.lt_ge_cases (Control.word (dev 0%nat)) 32768) as [L|G].
    + rewrite Hlow in V; lia.
    + rewrite Hhigh in V; lia.
Qed.

(** X6 on a device that accepts everything and reports version 2. *)
Lemma convertToAccessory_succeeds_iff_witness :
  snd (convertToAccessory (AOAP.friendly 2) []) = inl tt.
Proof.
  apply (proj1 (convertToAccessory_succeeds_iff (AOAP.friendly 2) ltac:(simpl; lia))).
  split; [intros n _; simpl; lia | simpl; lia].
Defined.

(** ** The string request within the buffer *)

(** X7. A string of at most 256 bytes is handed over whole: the request
    added to the log carries the given request number and index, the
    string's bytes, and a length equal to the number of bytes copied,
    within the buffer; the call throws exactly when the transfer's status
    is negative. *)
Theorem sendControlString_carries_short_strings (dev : Control.device)
  (request index : Z) (str : string) (l : Control.log) :
  (String.length str <= 256)%nat ->
  exists r,
    fst (sendControlString dev request index str l) = (l ++ [r])%list
    /\ Control.bRequest r = request /\ Control.wIndex r = index
    /\ Control.data r = string_bytes str
    /\ Control.wLength r = Z.of_nat (List.length (Control.data r))
    /\ Control.wLength r <= Control.capacity r
    /\ (snd (sendControlString dev request index str l) = inl tt <->
        0 <= Control.status (dev (List.length l))).
Proof.
  intros H. rewrite sendControlString_run. cbn [fst snd].
  eexists. split; [reflexivity|].
  cbn [Control.bRequest Control.wIndex Control.data Control.wLength Control.capacity].
  rewrite firstn_all2 by (rewrite string_bytes_length; lia).
  rewrite string_bytes_length.
  unfold uint16. rewrite wrap_small by (change (2 ^ 16) with 65536; lia).
  repeat split; try lia.
  - destruct (Z.ltb_spec (Control.status (dev (List.length l))) 0); [discriminate | lia].
  - destruct (Z.ltb_spec (Control.status (dev (List.length l))) 0); [lia | reflexivity].
Qed.

(** X7 on the manufacturer string. *)
Lemma sendControlString_carries_short_strings_witness :
  exists r,
    fst (sendControlString (AOAP.friendly 2) 52 0 "SiriusCybernetics" []) = [r]
    /\ Control.wLength r = 17.
Proof.
  destruct (sendControlString_carries_short_strings (AOAP.friendly 2) 52 0
              "SiriusCybernetics" [] ltac:(simpl; lia))
    as [r [Hlog [_ [_ [Hdata [Hlen _]]]]]].
  exists r. split; [exact Hlog|]. rewrite Hlen, Hdata. reflexivity.
Defined.

(** ** The handshake: what is judged, and what it unlocks *)

Lemma nth_fill_received r buf i :
  (i < List.length (Bulk.received r))%nat ->
  nth i (Bulk.fill buf r) 0 = nth i (Bulk.received r) 0.
Proof. intros H. unfold Bulk.fill. now apply app_nth1. Qed.

Lemma handshake_pattern_length n : List.length (handshake_pattern n) = n.
Proof. unfold handshake_pattern. now rewrite length_map, length_seq. Qed.

(** X8. The verdict on a read depends on the bytes that read delivered
    and on nothing that was in the buffer before it; a read that delivers
    the 16384-byte pattern is a success whatever the buffer held. *)
Theorem handshake_judges_the_read_alone (r : Bulk.result) (buf : bytes) :
  handshake_success (Bulk.transferred r) (Bulk.fill buf r)
  = handshake_success (Bulk.transferred r) (Bulk.received r)
  /\ (Bulk.received r = handshake_pattern (Z.to_nat BUFFER_LEN) ->
      handshake_success (Bulk.transferred r) (Bulk.fill buf r) = true).
Proof.
  assert (handshake_success (Bulk.transferred r) (Bulk.fill buf r)
          = handshake_success (Bulk.transferred r) (Bulk.received r)) as Heq.
  { apply eq_true_iff_eq. rewrite !handshake_success_iff. unfold Bulk.transferred.
    split; intros [Hlen H]; (split; [exact Hlen|]); intros i Hi.
    - rewrite <- nth_fill_received with (buf := buf) by lia. now apply H.
    - rewrite nth_fill_received by lia. now apply H. }
  split; [exact Heq|].
  intros Hr. rewrite Heq. apply handshake_success_iff.
  unfold Bulk.transferred. rewrite Hr, handshake_pattern_length.
  split; [reflexivity|].
  intros i Hi. rewrite nth_handshake_pattern by (unfold BUFFER_LEN; lia).
  rewrite Z2Nat.id by lia. reflexivity.
Qed.

Lemma pattern_read_received :
  Bulk.received pattern_read = handshake_pattern (Z.to_nat BUFFER_LEN).
Proof. reflexivity. Qed.

(** X8 on the pattern read into a buffer of stale bytes. *)
Lemma handshake_judges_the_read_alone_witness :
  handshake_success (Bulk.transferred pattern_read) (Bulk.fill [9; 9; 9] pattern_read)
  = true.
Proof.
  apply (proj2 (handshake_judges_the_read_alone pattern_read [9; 9; 9])).
  exact pattern_read_received.
Defined.

(** X9. After a handshake worker that was not cancelled, the streaming
    loops start exactly when the verdict was a success and their endpoint
    is present, a further handshake starts exactly when the verdict was a
    failure and the IN endpoint is present, and [isHandshakeComplete]
    reports the verdict.  After a cancelled worker the device is as
    before. *)
Theorem handshake_gates_the_loops {ext : Collaborators} (host : endianness)
  (w : waited) (d : MayaUsbDevice) (env : recv_env) (script : list tick) :
  let d' := after (handshake_finish w d) in
  let success := handshake_success (read w) (inputBuffer w) in
  (cancelled w = false ->
   isHandshakeComplete d' = success
   /\ fst (beginReadLoop env d') = negb (_inEndpoint d =? 0) && success
   /\ fst (fst (beginSendLoop host script d')) = negb (_outEndpoint d =? 0) && success
   /\ fst (waitHandshakeAsync env d') = negb (_inEndpoint d =? 0) && negb success)
  /\ (cancelled w = true -> d' = d).
Proof.
  cbv zeta. unfold handshake_finish. split; intros Hc; rewrite Hc; [|reflexivity].
  cbn [after]. unfold isHandshakeComplete, beginReadLoop, beginSendLoop, waitHandshakeAsync.
  cbn [_handshake _inEndpoint _outEndpoint set_handshake].
  destruct (handshake_success (read w) (inputBuffer w));
    destruct (_inEndpoint d =? 0); destruct (_outEndpoint d =? 0);
    repeat split.
Qed.

(** X9 after the short read and after the full read. *)
Lemma handshake_gates_the_loops_witness :
  fst (fst (beginSendLoop (ext := stand_ins) LittleEndian []
              (after (handshake_finish short_read attached)))) = false
  /\ fst (waitHandshakeAsync abandoned (after (handshake_finish short_read attached))) = true.
Proof.
  destruct (proj1 (handshake_gates_the_loops (ext := stand_ins) LittleEndian
                     short_read attached abandoned []) eq_refl)
    as [_ [_ [Hsend Hwait]]].
  split; [rewrite Hsend | rewrite Hwait]; reflexivity.
Defined.

(** ** The read loop *)

(** Whatever the loop meets, the calls it has made stay in front. *)
Lemma read_wait_shape cancel incoming : forall k flag status buf calls c calls',
  read_wait cancel k flag incoming status buf calls = Some (c, calls') ->
  exists bufs, calls' = (calls ++ map Some bufs)%list.
Proof.
  induction incoming as [|r rest IH]; intros k flag status buf calls c calls' H;
    cbn [read_wait] in H.
  - destruct (flag || cancel k).
    { injection H as _ <-. exists []. now rewrite app_nil_r. }
    destruct (negb ((status =? 0) || (status =? LIBUSB_ERROR_TIMEOUT))); [|discriminate H].
    injection H as _ <-. exists []. now rewrite app_nil_r.
  - destruct (flag || cancel k).
    { injection H as _ <-. exists []. now rewrite app_nil_r. }
    destruct (negb ((status =? 0) || (status =? LIBUSB_ERROR_TIMEOUT))).
    { injection H as _ <-. exists []. now rewrite app_nil_r. }
    apply IH in H. destruct H as [bufs ->].
    destruct (Bulk.status r =? 0).
    + exists (Bulk.fill buf r :: bufs). now rewrite <- app_assoc.
    + exists bufs. reflexivity.
Qed.

(** X10. In every run of the read-loop worker that has returned, the
    callback was given buffers first and the null sentinel at most once,
    as the very last call; the device members are untouched. *)
Theorem read_worker_sentinel_is_last (env : recv_env) (d : MayaUsbDevice)
  (f : finished (option bytes)) :
  read_worker env d = Exited f ->
  after f = d /\ wire f = []
  /\ exists bufs, calls f = map Some bufs \/ calls f = (map Some bufs ++ [None])%list.
Proof.
  unfold read_worker. intros H.
  destruct (read_wait (ext_cancel env) 0 false (incoming env) LIBUSB_ERROR_TIMEOUT
              (scratch env) []) as [[c cs]|] eqn:Hw; [|discriminate H].
  injection H as <-. cbn [after wire calls].
  split; [reflexivity|]. split; [reflexivity|].
  apply read_wait_shape in Hw. destruct Hw as [bufs ->]. cbn [app].
  exists bufs. destruct c; [left | right]; reflexivity.
Qed.

(** X10 on the run that meets an unplugged device. *)
Lemma read_worker_sentinel_is_last_witness :
  exists bufs,
    calls (mkFinished true [Some [1; 2]; None] [] streaming) = map Some bufs
    \/ calls (mkFinished true [Some [1; 2]; None] [] streaming)
       = (map Some bufs ++ [None])%list.
Proof.
  exact (proj2 (proj2 (read_worker_sentinel_is_last unplugged streaming
                         (mkFinished true [Some [1; 2]; None] [] streaming) eq_refl))).
Defined.

(** Reads that return 0 or time out under a clear flag keep the loop
    going; each read that returned 0 is handed to the callback. *)
Lemma read_wait_carries_on cancel good : forall k rest status buf calls,
  status = 0 \/ status = LIBUSB_ERROR_TIMEOUT ->
  Forall carries_on good ->
  (forall j, (j < List.length good)%nat -> cancel (k + j)%nat = false) ->
  exists status',
    (status' = 0 \/ status' = LIBUSB_ERROR_TIMEOUT)
    /\ read_wait cancel k false (good ++ rest) status buf calls
       = read_wait cancel (k + List.length good) false rest status' (filled good buf)
           (calls ++ map Some (delivered good buf))%list.
Proof.
  induction good as [|g good IH]; intros k rest status buf calls Hst Hgood Hc.
  - exists status. split; [exact Hst|].
    cbn [app List.length delivered map filled fold_left].
    now rewrite Nat.add_0_r, app_nil_r.
  - inversion Hgood as [|? ? Hg Hgood']; subst.
    pose proof (Hc 0%nat ltac:(simpl; lia)) as Hk. rewrite Nat.add_0_r in Hk.
    destruct (IH (S k) rest (Bulk.status g) (Bulk.fill buf g)
                (if Bulk.status g =? 0 then (calls ++ [Some (Bulk.fill buf g)])%list
                 else calls) Hg Hgood') as [status' [Hst' Heq]].
    { intros j Hj. replace (S k + j)%nat with (k + S j)%nat by lia.
      apply Hc. simpl. lia. }
    exists status'. split; [exact Hst'|].
    cbn [app read_wait]. rewrite Hk. cbn [orb].
    assert (negb ((status =? 0) || (status =? LIBUSB_ERROR_TIMEOUT)) = false) as ->.
    { destruct Hst as [-> | ->]; reflexivity. }
    rewrite Heq. cbn [List.length delivered filled fold_left].
    replace (S k + List.length good)%nat with (k + S (List.length good))%nat by lia.
    f_equal.
    destruct (Bulk.status g =? 0); cbn [map]; [now rewrite <- app_assoc | reflexivity].
Qed.

(** X11. Let the reads [good] return 0 or time out with no cancellation
    seen.  If the next read fails otherwise (the flag still clear), the
    callback has received the buffer once for each read that returned 0,
    none for a timeout, and then the null sentinel.  If instead the next
    look at the flag finds it set, the callback has received the same
    buffers and no sentinel. *)
Theorem read_worker_runs (env : recv_env) (d : MayaUsbDevice)
  (good rest : list Bulk.result) :
  incoming env = (good ++ rest)%list ->
  Forall carries_on good ->
  (forall j, (j < List.length good)%nat -> ext_cancel env j = false) ->
  (forall bad rest',
     rest = bad :: rest' ->
     ~ carries_on bad ->
     ext_cancel env (List.length good) = false ->
     ext_cancel env (S (List.length good)) = false ->
     read_worker env d
     = Exited (mkFinished true
                 (map Some (delivered good (scratch env)) ++ [None])%list [] d))
  /\ (ext_cancel env (List.length good) = true ->
      read_worker env d
      = Exited (mkFinished true (map Some (delivered good (scratch env))) [] d)).
Proof.
  intros Hin Hgood Hclear. unfold read_worker. rewrite Hin.
  destruct (read_wait_carries_on (ext_cancel env) good 0 rest LIBUSB_ERROR_TIMEOUT
              (scratch env) [] (or_intror eq_refl) Hgood Hclear)
    as [status' [Hst' ->]].
  cbn [Nat.add app]. split.
  - intros bad rest' -> Hbad Hk HSk.
    cbn [read_wait]. rewrite Hk. cbn [orb].
    assert (negb ((status' =? 0) || (status' =? LIBUSB_ERROR_TIMEOUT)) = false) as ->.
    { destruct Hst' as [-> | ->]; reflexivity. }
    assert ((Bulk.status bad =? 0) = false) as Hz.
    { apply Z.eqb_neq. intros E. apply Hbad. now left. }
    assert ((Bulk.status bad =? LIBUSB_ERROR_TIMEOUT) = false) as Ht.
    { apply Z.eqb_neq. intros E. apply Hbad. now right. }
    rewrite Hz.
    destruct rest' as [|r' rest'']; cbn [read_wait]; rewrite HSk, Hz, Ht; reflexivity.
  - intros Hset.
    destruct rest as [|r rest']; cbn [read_wait]; rewrite Hset; reflexivity.
Qed.

(** X11 on two packets with a timeout between them, followed by an
    error, and on the same reads cut short by cancellation. *)
Lemma read_worker_runs_witness :
  read_worker
    (mkRecvEnv (fun _ => false)
       [Bulk.mkResult 0 [1; 2]; timeout_read; Bulk.mkResult 0 [3]; Bulk.mkResult (-4) []]
       [9; 9])
    streaming
  = Exited (mkFinished true [Some [1; 2]; Some [3; 2]; None] [] streaming)
  /\ read_worker
       (mkRecvEnv (fun k => (1 <=? k)%nat) [Bulk.mkResult 0 [1; 2]; timeout_read] [9; 9])
       streaming
     = Exited (mkFinished true [Some [1; 2]] [] streaming).
Proof.
  split.
  - apply (proj1 (read_worker_runs
                    (mkRecvEnv (fun _ => false)
                       [Bulk.mkResult 0 [1; 2]; timeout_read; Bulk.mkResult 0 [3];
                        Bulk.mkResult (-4) []] [9; 9])
                    streaming
                    [Bulk.mkResult 0 [1; 2]; timeout_read; Bulk.mkResult 0 [3]]
                    [Bulk.mkResult (-4) []] eq_refl
                    ltac:(repeat constructor; (now left) || (now right))
                    ltac:(intros; reflexivity))
             (Bulk.mkResult (-4) []) []); try reflexivity.
    intros [H|H]; discriminate H.
  - apply (proj2 (read_worker_runs
                    (mkRecvEnv (fun k => (1 <=? k)%nat)
                       [Bulk.mkResult 0 [1; 2]; timeout_read] [9; 9])
                    streaming [Bulk.mkResult 0 [1; 2]] [timeout_read] eq_refl
                    ltac:(repeat constructor; now left)
                    ltac:(intros j Hj; destruct j; [reflexivity | simpl in Hj; lia]))).
    reflexivity.
Defined.

(** ** Submission: formats and back-to-back frames *)

Section SubmissionSequences.
Context {ext : Collaborators}.

(** X12. A submission is accepted exactly when the lock is obtained, no
    frame is pending and the format is one [supportsRasterFormat]
    accepts; a submission that is not accepted, and so any submission in
    an unsupported format, leaves every member of the device as it was. *)
Theorem sendStereo_accepts_iff (try_lock : bool) (data : PixelData)
  (desc : MTextureDescription) (d : MayaUsbDevice) :
  fst (sendStereo try_lock data desc d)
  = try_lock && negb (_sendReady d) && supportsRasterFormat (fFormat desc)
  /\ (fst (sendStereo try_lock data desc d) = false ->
      snd (sendStereo try_lock data desc d) = d)
  /\ (supportsRasterFormat (fFormat desc) = false ->
      sendStereo try_lock data desc d = (false, d)).
Proof.
  unfold sendStereo, supportsRasterFormat.
  destruct try_lock; destruct (_sendReady d); destruct (fFormat desc);
    cbn [negb andb fst snd]; repeat split; try reflexivity; discriminate.
Qed.

(** X13. Once a frame was accepted, a further submission is dropped
    without touching the staged frame, whatever its data, format and luck
    with the lock; after the send loop has cleared the ready flag, a
    submission in a supported format is accepted again. *)
Theorem sendStereo_one_frame_at_a_time (data1 data2 : PixelData)
  (desc1 desc2 : MTextureDescription) (try_lock : bool) (d : MayaUsbDevice) :
  fst (sendStereo true data1 desc1 d) = true ->
  let d1 := snd (sendStereo true data1 desc1 d) in
  sendStereo try_lock data2 desc2 d1 = (false, d1)
  /\ (supportsRasterFormat (fFormat desc2) = true ->
      fst (sendStereo true data2 desc2 (set_sendReady false d1)) = true).
Proof.
  unfold sendStereo, supportsRasterFormat.
  destruct (_sendReady d); cbn [negb]; [discriminate|].
  destruct (fFormat desc1); cbn [fst snd]; try discriminate; intros _; cbv zeta;
    cbn [stage _sendReady set_sendReady negb];
    (split; [destruct try_lock; reflexivity|]);
    destruct (fFormat desc2); cbn [fst]; intros H; try reflexivity; discriminate H.
Qed.

End SubmissionSequences.

(** X12 on a frame in a format of the enumeration that is not taken. *)
Lemma sendStereo_accepts_iff_witness :
  submit true [1; 2] (mkDesc 3 4 (kOtherFormat 7)) streaming = (false, streaming).
Proof.
  apply (proj2 (proj2 (sendStereo_accepts_iff (ext := stand_ins) true [1; 2]
                         (mkDesc 3 4 (kOtherFormat 7)) streaming))).
  reflexivity.
Defined.

(** X13 on two frames submitted in a row. *)
Lemma sendStereo_one_frame_at_a_time_witness :
  submit false [3; 4] frame_desc staged = (false, staged)
  /\ fst (submit true [3; 4] frame_desc (set_sendReady false staged)) = true.
Proof.
  destruct (sendStereo_one_frame_at_a_time (ext := stand_ins) [1; 2] [3; 4]
              frame_desc frame_desc false streaming eq_refl) as [H1 H2].
  split; [exact H1 | exact (H2 eq_refl)].
Defined.

(** ** The send loop: sizes of transfers *)

Lemma send_chunks_bounded written jpeg size fuel : forall k i ws error,
  send_chunks fuel written k i jpeg size = Some (ws, error) -> Forall bounded ws.
Proof.
  induction fuel as [|fuel IH]; intros k i ws error H; [discriminate H|].
  cbn [send_chunks] in H.
  destruct (size_t i <? size); [|injection H as <- _; constructor].
  set (chunk := int32 (Z.min BUFFER_LEN (size_t (size - size_t i)))) in *.
  assert (chunk <= BUFFER_LEN) as Hchunk.
  { unfold chunk.
    assert (0 <= size_t (size - size_t i)) by (apply Z.mod_pos_bound; reflexivity).
    rewrite int32_small; unfold BUFFER_LEN; lia. }
  assert (bounded (Bulk.mkWrite (firstn (Z.to_nat chunk) (skipn (Z.to_nat i) jpeg))
                     (written k))) as Hw.
  { unfold bounded. cbn [Bulk.buffer]. rewrite length_firstn. unfold BUFFER_LEN in *. lia. }
  destruct (written k <? chunk).
  - injection H as <- _. now constructor.
  - destruct (send_chunks fuel written (S k) (int32 (i + BUFFER_LEN)) jpeg size)
      as [[ws' error']|] eqn:Hrec; [|discriminate H].
    injection H as <- _. constructor; [exact Hw|]. eapply IH, Hrec.
Qed.

Section LoopFacts.
Context {ext : Collaborators}.
Variable host : endianness.

(** An iteration changes the JPEG members and nothing else. *)
Lemma send_frame_device written d d' ws error :
  send_frame host written d = Some (d', ws, error) ->
  d' = set_jpeg (tjCompress2 (_rgbImageBuffer d) (_jpegBufferWidth d) (_jpegBufferHeight d))
         (size_t (Z.of_nat (List.length
            (tjCompress2 (_rgbImageBuffer d) (_jpegBufferWidth d) (_jpegBufferHeight d)))))
         d.
Proof.
  unfold send_frame. intros H.
  destruct (size_t (written 0%nat) <? 4); [now injection H as <- _ _|].
  destruct (send_chunks _ written 1 0 _ _) as [[ws' e']|]; [|discriminate H].
  now injection H as <- _ _.
Qed.

Lemma send_frame_bounded written d d' ws error :
  send_frame host written d = Some (d', ws, error) -> Forall bounded ws.
Proof.
  unfold send_frame. intros H.
  assert (forall v sent, bounded (Bulk.mkWrite (object_bytes host v) sent)) as Hheader.
  { intros v sent. unfold bounded. destruct host; cbn; unfold BUFFER_LEN; lia. }
  destruct (size_t (written 0%nat) <? 4).
  - injection H as _ <- _. constructor; [apply Hheader | constructor].
  - destruct (send_chunks _ written 1 0 _ _) as [[ws' e']|] eqn:Hc; [|discriminate H].
    injection H as _ <- _. constructor; [apply Hheader|].
    eapply send_chunks_bounded, Hc.
Qed.

Lemma send_loop_bounded script : forall flag d out f,
  send_loop host script flag d out = Exited f ->
  Forall bounded out -> Forall bounded (wire f).
Proof.
  induction script as [|t rest IH]; intros flag d out f H Hout; [discriminate H|].
  cbn [send_loop] in H.
  destruct (negb (_sendReady (snd (fold_left ext_step (before t) (flag, d)))
                  || fst (fold_left ext_step (before t) (flag, d)))).
  { eapply IH; eassumption. }
  destruct (fst (fold_left ext_step (before t) (flag, d))).
  { injection H as <-. cbn [wire]. apply Forall_app. split; [exact Hout|].
    constructor; [|constructor]. unfold bounded, BUFFER_LEN. cbn. lia. }
  destruct (send_frame host (written t) _) as [[[d' ws] error]|] eqn:Hf; [|discriminate H].
  assert (Forall bounded (out ++ ws)) as Hall
    by (apply Forall_app; split; [exact Hout | eapply send_frame_bounded, Hf]).
  destruct error.
  - injection H as <-. exact Hall.
  - eapply IH; eassumption.
Qed.

(** X14. In every run of the send-loop worker that has returned, no
    bulk transfer was handed more than 16384 bytes: not a header, not a
    chunk, whatever size the compressor reported and whatever counts the
    transfers stored, and not the termination frame. *)
Theorem send_worker_transfers_are_bounded (script : list tick) (d : MayaUsbDevice)
  (f : finished unit) :
  send_worker host script d = Exited f -> Forall bounded (wire f).
Proof.
  intros H. eapply send_loop_bounded; [exact H | constructor].
Qed.

(** ** The send loop: the failure callback *)

Lemma send_loop_exits script : forall flag d out f,
  send_loop host script flag d out = Exited f ->
  exists ws,
    wire f = (out ++ ws)%list
    /\ ((calls f = [] /\ exists pre sent, ws = (pre ++ [termination sent])%list)
        \/ (calls f = [tt] /\ _sendReady (after f) = true)).
Proof.
  induction script as [|t rest IH]; intros flag d out f H; [discriminate H|].
  cbn [send_loop] in H.
  destruct (_sendReady (snd (fold_left ext_step (before t) (flag, d)))) eqn:Hready;
    destruct (fst (fold_left ext_step (before t) (flag, d))) eqn:Hflag;
    cbn [orb negb] in H.
  - injection H as <-. exists [termination (written t 0%nat)]. split; [reflexivity|].
    left. split; [reflexivity|]. now exists [], (written t 0%nat).
  - destruct (send_frame host (written t) _) as [[[d' ws] error]|] eqn:Hf; [|discriminate H].
    pose proof (send_frame_device _ _ _ _ _ Hf) as Hd'.
    destruct error.
    + injection H as <-. exists ws. split; [reflexivity|]. right.
      split; [reflexivity|]. cbn [after]. rewrite Hd'. exact Hready.
    + destruct (IH _ _ _ _ H) as [ws' [Hwire Hcases]].
      exists (ws ++ ws')%list. split; [now rewrite Hwire, app_assoc|].
      destruct Hcases as [[Hc [pre [sent ->]]] | Hc]; [left | now right].
      split; [exact Hc|]. exists (ws ++ pre)%list, sent. now rewrite app_assoc.
  - injection H as <-. exists [termination (written t 0%nat)]. split; [reflexivity|].
    left. split; [reflexivity|]. now exists [], (written t 0%nat).
  - eapply IH, H.
Qed.

(** X15. A run of the send-loop worker that has returned either made no
    callback and ended on the termination write, or made the failure
    callback exactly once and left the ready flag set.  In the second
    case every later submission is dropped, until [beginSendLoop] is
    called again, which clears the flag. *)
Theorem send_worker_failure_is_terminal (script script' : list tick) (d : MayaUsbDevice)
  (f : finished unit) :
  send_worker host script d = Exited f ->
  (calls f = [] /\ exists pre sent, wire f = (pre ++ [termination sent])%list)
  \/ (calls f = [tt]
      /\ (forall try_lock data desc,
            sendStereo try_lock data desc (after f) = (false, after f))
      /\ (_outEndpoint (after f) <> 0 -> _handshake (after f) = true ->
          exists r, beginSendLoop host script' (after f)
                    = (true, set_sendReady false (after f), Some r))).
Proof.
  intros H. destruct (send_loop_exits _ _ _ _ _ H) as [ws [Hwire Hcases]].
  cbn [app] in Hwire.
  destruct Hcases as [[Hc [pre [sent ->]]] | [Hc Hready]].
  - left. split; [exact Hc|]. now exists pre, sent.
  - right. split; [exact Hc|]. split.
    + intros try_lock data desc. unfold sendStereo. rewrite Hready.
      destruct try_lock; reflexivity.
    + intros Hout Hh. unfold beginSendLoop. rewrite Hh.
      destruct (Z.eqb_spec (_outEndpoint (after f)) 0); [contradiction|].
      eexists. reflexivity.
Qed.

End LoopFacts.

(** X14 on a run whose chunk falls short. *)
Lemma send_worker_transfers_are_bounded_witness :
  Forall bounded [ Bulk.mkWrite [0; 0; 0; 6] 4;
                   Bulk.mkWrite [255; 255; 255; 255; 255; 255] 2 ].
Proof.
  exact (send_worker_transfers_are_bounded (ext := stand_ins) BigEndian [broken_tick]
           streaming
           (mkFinished true [tt]
              [ Bulk.mkWrite [0; 0; 0; 6] 4; Bulk.mkWrite [255; 255; 255; 255; 255; 255] 2 ]
              (set_jpeg [255; 255; 255; 255; 255; 255] 6 staged))
           eq_refl).
Defined.

(** X15 on the same run: the next submission is dropped. *)
Lemma send_worker_failure_is_terminal_witness :
  submit true [3; 4] frame_desc (set_jpeg [255; 255; 255; 255; 255; 255] 6 staged)
  = (false, set_jpeg [255; 255; 255; 255; 255; 255] 6 staged).
Proof.
  destruct (send_worker_failure_is_terminal (ext := stand_ins) BigEndian [broken_tick] []
              streaming
              (mkFinished true [tt]
                 [ Bulk.mkWrite [0; 0; 0; 6] 4;
                   Bulk.mkWrite [255; 255; 255; 255; 255; 255] 2 ]
                 (set_jpeg [255; 255; 255; 255; 255; 255] 6 staged))
              eq_refl) as [[Hc _] | [_ [Hdrop _]]].
  - discriminate Hc.
  - exact (Hdrop true [3; 4] frame_desc).
Defined.

(** ** The send loop: the stream of a whole session *)

Lemma transmitted_app a b : transmitted (a ++ b) = (transmitted a ++ transmitted b)%list.
Proof. unfold transmitted. now rewrite map_app, concat_app. Qed.

Lemma last_cons {A} (l : list A) : forall a x, last (a :: l) x = last l a.
Proof.
  induction l as [|b l IH]; intros a x; [reflexivity|].
  change (last (a :: b :: l) x) with (last (b :: l) x).
  now rewrite (IH b x), (IH b a).
Qed.

Lemma decode_stream_step fuel wire :
  decode_stream (S fuel) wire =
  match decode_be32 wire with
  | None => None
  | Some n =>
    if n =? 0 then Some []
    else
      let body := skipn 4 wire in
      if Z.of_nat (List.length body) <? n then None
      else
        match decode_stream fuel (skipn (Z.to_nat n) body) with
        | Some frames => Some (firstn (Z.to_nat n) body :: frames)
        | None => None
        end
  end.
Proof. reflexivity. Qed.

(** The receiver reads back the frames in front of a termination frame. *)
Lemma decode_stream_framed jpegs : forall tail,
  Forall (fun j => 0 < Z.of_nat (List.length j) < 2 ^ 32) jpegs ->
  decode_stream (S (List.length jpegs)) (flat_map framed jpegs ++ [0; 0; 0; 0] ++ tail)
  = Some jpegs.
Proof.
  induction jpegs as [|j js IH]; intros tail H; [reflexivity|].
  inversion H as [|? ? Hj Hjs]; subst.
  cbn [flat_map List.length]. unfold framed at 1. rewrite <- !app_assoc.
  rewrite decode_stream_step, decode_be32_be32 by lia. cbv zeta.
  destruct (Z.eqb_spec (Z.of_nat (List.length j)) 0) as [E|_]; [lia|].
  change (skipn 4 (be32 (Z.of_nat (List.length j))
                   ++ j ++ flat_map framed js ++ [0; 0; 0; 0] ++ tail))
    with (j ++ flat_map framed js ++ [0; 0; 0; 0] ++ tail)%list.
  rewrite Nat2Z.id.
  destruct (Z.ltb_spec (Z.of_nat (List.length (j ++ flat_map framed js ++ [0; 0; 0; 0] ++ tail)))
              (Z.of_nat (List.length j))) as [Hlt|_].
  { rewrite length_app in Hlt. lia. }
  rewrite skipn_app, skipn_all, Nat.sub_diag, skipn_O, app_nil_l.
  rewrite IH by exact Hjs.
  rewrite firstn_app, firstn_all, Nat.sub_diag, firstn_O, app_nil_r. reflexivity.
Qed.

Section StreamFacts.
Context {ext : Collaborators}.
Variable host : endianness.

(** Submissions and cancellations do not touch the JPEG buffer. *)
Lemma ext_steps_keep_jpeg actions : forall s,
  _jpegBuffer (snd (fold_left ext_step actions s)) = _jpegBuffer (snd s).
Proof.
  induction actions as [|a actions IH]; intros s; [reflexivity|].
  cbn [fold_left]. rewrite IH.
  destruct a as [|data desc]; [reflexivity|].
  cbn [ext_step snd]. unfold sendStereo.
  destruct (_sendReady (snd s)); cbn [negb snd]; [reflexivity|].
  destruct (fFormat desc); reflexivity.
Qed.

(** An iteration whose writes all go through puts one framed JPEG on
    the wire. *)
Lemma send_frame_sends_framed written d :
  let jpeg := tjCompress2 (_rgbImageBuffer d) (_jpegBufferWidth d) (_jpegBufferHeight d) in
  Z.of_nat (List.length jpeg) <= INT_MAX ->
  (forall k, 0 <= written k <= INT_MAX) ->
  exists d' ws error,
    send_frame host written d = Some (d', ws, error)
    /\ _jpegBuffer d' = jpeg
    /\ (error = false -> transmitted ws = framed jpeg).
Proof.
  intros jpeg Hmax Hwritten.
  set (size := Z.of_nat (List.length jpeg)).
  assert (0 <= size <= 2 ^ 31 - 1) as Hsize by (unfold size, INT_MAX in *; lia).
  unfold send_frame. fold jpeg. cbn [_jpegBufferSize _jpegBuffer set_jpeg]. fold size.
  rewrite (size_t_small size) by lia.
  unfold uint32. rewrite (wrap_small 32 size) by lia.
  rewrite header_is_big_endian.
  pose proof (Hwritten 0%nat) as Hw0. unfold INT_MAX in Hw0.
  rewrite (size_t_small (written 0%nat)) by lia.
  destruct (Z.ltb_spec (written 0%nat) 4) as [Hshort|Hfull].
  { do 3 eexists. split; [reflexivity|]. split; [reflexivity | discriminate]. }
  assert (exists ws error,
             send_chunks (chunk_fuel size) written 1 0 jpeg size = Some (ws, error)
             /\ (error = false ->
                 List.concat (map Bulk.buffer ws) = jpeg /\ Forall complete ws))
    as [ws [error [Hrun Hok]]].
  { destruct (Z.eq_dec size 0) as [Hz|Hnz].
    - exists [], false. split.
      + unfold chunk_fuel. apply send_chunks_exit; unfold INT_MAX; lia.
      + intros _. split; [|constructor].
        destruct jpeg; [reflexivity | unfold size in Hz; simpl in Hz; lia].
    - destruct (send_chunks_run written jpeg size (chunk_fuel size) 1 0)
        as [ws [error [H1 [_ H2]]]]; try reflexivity; try (unfold INT_MAX; lia).
      + unfold chunk_fuel, BUFFER_LEN. rewrite Z.sub_0_r.
        rewrite Z.min_l by lia.
        assert (0 <= size / 16384) by (apply Z.div_pos; lia). lia.
      + exists ws, error. split; [exact H1 | exact H2]. }
  rewrite Hrun.
  do 3 eexists. split; [reflexivity|]. split; [reflexivity|].
  intros He. destruct (Hok He) as [Hcat Hcomplete].
  rewrite transmitted_complete.
  - cbn [map List.concat Bulk.buffer]. rewrite Hcat. reflexivity.
  - constructor; [|exact Hcomplete]. unfold complete. cbn. lia.
Qed.

Lemma send_loop_stream script : forall flag d out f,
  send_loop host script flag d out = Exited f ->
  calls f = [] ->
  (forall t, In t script -> forall k, 0 <= written t k <= INT_MAX) ->
  (forall rgb w h, Z.of_nat (List.length (tjCompress2 rgb w h)) <= INT_MAX) ->
  exists jpegs sent,
    transmitted (wire f)
    = (transmitted out ++ flat_map framed jpegs
       ++ firstn (Z.to_nat sent) [0; 0; 0; 0])%list
    /\ Forall (fun j => exists rgb w h, j = tjCompress2 rgb w h) jpegs
    /\ last jpegs (_jpegBuffer d) = _jpegBuffer (after f).
Proof.
  induction script as [|t rest IH]; intros flag d out f H Hcalls Hwritten Hcodec;
    [discriminate H|].
  cbn [send_loop] in H.
  pose proof (ext_steps_keep_jpeg (before t) (flag, d)) as Hkeep. cbn [snd] in Hkeep.
  assert (forall t', In t' rest -> forall k, 0 <= written t' k <= INT_MAX) as Hrest
    by (intros t' Ht'; apply Hwritten; now right).
  destruct (negb (_sendReady (snd (fold_left ext_step (before t) (flag, d)))
                  || fst (fold_left ext_step (before t) (flag, d)))).
  { destruct (IH _ _ _ _ H Hcalls Hrest Hcodec) as [jpegs [sent [Hw [Hfrom Hlast]]]].
    exists jpegs, sent. split; [exact Hw|]. split; [exact Hfrom|]. now rewrite <- Hkeep. }
  destruct (fst (fold_left ext_step (before t) (flag, d))).
  { injection H as <-. exists [], (written t 0%nat). cbn [wire after flat_map last app].
    split; [|split; [constructor | now rewrite Hkeep]].
    rewrite transmitted_app. f_equal. unfold transmitted. cbn [map List.concat].
    now rewrite app_nil_r. }
  destruct (send_frame_sends_framed (written t)
              (snd (fold_left ext_step (before t) (flag, d)))
              (Hcodec _ _ _) (Hwritten t (or_introl eq_refl)))
    as [d' [ws [error [Hf [Hjpeg Hframed]]]]].
  rewrite Hf in H. destruct error.
  { injection H as <-. discriminate Hcalls. }
  destruct (IH _ _ _ _ H Hcalls Hrest Hcodec) as [jpegs [sent [Hw [Hfrom Hlast]]]].
  exists (_jpegBuffer d' :: jpegs), sent. split; [|split].
  - rewrite Hw, transmitted_app, (Hframed eq_refl), Hjpeg. cbn [flat_map].
    now rewrite <- !app_assoc.
  - constructor; [|exact Hfrom]. rewrite Hjpeg. now do 3 eexists.
  - rewrite last_cons. exact Hlast.
Qed.

(** X16. Take a run of the send-loop worker that has returned without a
    failure callback, with a compressor whose outputs are never empty and
    fit an [int], and transfer counts that are non-negative [int]s.  The
    bytes put on the wire are then a sequence of frames, each the
    big-endian length of a JPEG followed by that JPEG, and then as much of
    the four zero bytes as the last write got through; the last JPEG sent
    is the one left in the JPEG buffer.  When the termination frame got
    through whole, a receiver that reads frames until a zero length gets
    exactly the JPEGs that were sent. *)
Theorem send_worker_session_round_trip (script : list tick) (d : MayaUsbDevice)
  (f : finished unit) :
  send_worker host script d = Exited f ->
  calls f = [] ->
  (forall t, In t script -> forall k, 0 <= written t k <= INT_MAX) ->
  (forall rgb w h, 0 < Z.of_nat (List.length (tjCompress2 rgb w h)) <= INT_MAX) ->
  exists jpegs sent,
    transmitted (wire f)
    = (flat_map framed jpegs ++ firstn (Z.to_nat sent) [0; 0; 0; 0])%list
    /\ last jpegs (_jpegBuffer d) = _jpegBuffer (after f)
    /\ (4 <= sent ->
        decode_stream (S (List.length jpegs)) (transmitted (wire f)) = Some jpegs).
Proof.
  intros H Hcalls Hwritten Hcodec.
  destruct (send_loop_stream script false d [] f H Hcalls Hwritten
              (fun rgb w h => proj2 (Hcodec rgb w h)))
    as [jpegs [sent [Hw [Hfrom Hlast]]]].
  cbn [transmitted map List.concat app] in Hw.
  exists jpegs, sent. split; [exact Hw|]. split; [exact Hlast|].
  intros Hsent. rewrite Hw.
  rewrite firstn_all2 by (cbn [List.length]; lia).
  rewrite <- (app_nil_r [0; 0; 0; 0]).
  apply decode_stream_framed.
  apply Forall_forall. intros j Hj.
  rewrite Forall_forall in Hfrom. destruct (Hfrom j Hj) as [rgb [w [h ->]]].
  pose proof (Hcodec rgb w h) as Hb. unfold INT_MAX in Hb. lia.
Qed.

End StreamFacts.

(** X16 on a session of two frames. *)
Lemma send_worker_session_round_trip_witness :
  exists f,
    send_worker (ext := marking_codec) LittleEndian session streaming = Exited f
    /\ transmitted (wire f)
       = [0; 0; 0; 4; 1; 2; 0; 217; 0; 0; 0; 4; 5; 2; 0; 217; 0; 0; 0; 0]
    /\ decode_stream 3 (transmitted (wire f)) = Some [[1; 2; 0; 217]; [5; 2; 0; 217]].
Proof.
  assert (exists f, send_worker (ext := marking_codec) LittleEndian session streaming
                    = Exited f /\ calls f = []) as [f [Hrun Hcalls]].
  { eexists. split; vm_compute; reflexivity. }
  exists f. split; [exact Hrun|].
  destruct (send_worker_session_round_trip (ext := marking_codec) LittleEndian session
              streaming f Hrun Hcalls) as [jpegs [sent [Hw [_ Hdec]]]].
  - intros t Ht k.
    destruct Ht as [<-|[<-|[<-|[]]]]; cbn [written]; unfold INT_MAX; lia.
  - intros rgb w h.
    change (tjCompress2 rgb w h) with (firstn 3 rgb ++ [217])%list.
    rewrite length_app, length_firstn. change (List.length [217]) with 1%nat.
    unfold INT_MAX. lia.
  - vm_compute in Hrun. injection Hrun as <-.
    split; vm_compute; reflexivity.
Defined.

(** ** The library handles *)

Lemma replay_app l a : forall live b,
  replay l live (a ++ b) =
  match replay l live a with
  | Some live' => replay l live' b
  | None => None
  end.
Proof.
  induction a as [|c a IH]; intros live b; [reflexivity|].
  cbn [app replay].
  destruct (init_of l c) as [created|]; [destruct live; [reflexivity | apply IH]|].
  destruct (exit_of l c); [destruct live; [apply IH | reflexivity] | apply IH].
Qed.

(** Each of the four functions keeps both libraries' disciplines. *)
Lemma static_step_keeps_discipline s op :
  replay Usb false (lib_calls s) = Some (_usb s) ->
  replay Jpeg false (lib_calls s) = Some (_jpegCompressor s) ->
  replay Usb false (lib_calls (static_step s op)) = Some (_usb (static_step s op))
  /\ replay Jpeg false (lib_calls (static_step s op))
     = Some (_jpegCompressor (static_step s op)).
Proof.
  intros Hu Hj.
  destruct op as [created| |created|]; cbn [static_step];
    unfold initUsb, exitUsb, initJpeg, exitJpeg.
  - destruct (_usb s) eqn:E; [now rewrite E|].
    cbn [lib_calls _usb _jpegCompressor]. rewrite !replay_app, Hu, Hj. split; reflexivity.
  - destruct (_usb s) eqn:E; cbn [lib_calls _usb _jpegCompressor].
    + rewrite !replay_app, Hu, Hj. split; reflexivity.
    + rewrite Hu, Hj. split; reflexivity.
  - destruct (_jpegCompressor s) eqn:E; [now rewrite E|].
    cbn [lib_calls _usb _jpegCompressor]. rewrite !replay_app, Hu, Hj. split; reflexivity.
  - destruct (_jpegCompressor s) eqn:E; cbn [lib_calls _usb _jpegCompressor].
    + rewrite !replay_app, Hu, Hj. split; reflexivity.
    + rewrite Hu, Hj. split; reflexivity.
Qed.

(** X17. Whatever sequence of [initUsb], [exitUsb], [initJpeg] and
    [exitJpeg] calls a program makes from its start, and whether or not
    the initialisations produce a handle, each library is used correctly:
    it is never initialised while its handle is live and never released
    without a live handle, and [_usb] and [_jpegCompressor] are non-null
    exactly when the handle is live. *)
Theorem static_handles_follow_the_discipline (ops : list static_op) :
  let s := fold_left static_step ops statics0 in
  replay Usb false (lib_calls s) = Some (_usb s)
  /\ replay Jpeg false (lib_calls s) = Some (_jpegCompressor s).
Proof.
  cbv zeta.
  assert (forall s,
             replay Usb false (lib_calls s) = Some (_usb s) ->
             replay Jpeg false (lib_calls s) = Some (_jpegCompressor s) ->
             replay Usb false (lib_calls (fold_left static_step ops s))
             = Some (_usb (fold_left static_step ops s))
             /\ replay Jpeg false (lib_calls (fold_left static_step ops s))
                = Some (_jpegCompressor (fold_left static_step ops s))) as H.
  { induction ops as [|op ops IH]; intros s Hu Hj; [now split|].
    cbn [fold_left].
    destruct (static_step_keeps_discipline s op Hu Hj) as [Hu' Hj'].
    now apply IH. }
  apply H; reflexivity.
Qed.

(** X18. A second initialisation while the handle is live calls the
    library no further, a release without a live handle calls it not at
    all, and after a release the next initialisation goes to the library
    again; so does the next initialisation after one that produced no
    handle. *)
Theorem static_init_exit_are_idempotent (s : Statics) (created created' : bool) :
  (_usb (initUsb created s) = true ->
   initUsb created' (initUsb created s) = initUsb created s)
  /\ exitUsb (exitUsb s) = exitUsb s
  /\ lib_calls (initUsb created (exitUsb s))
     = (lib_calls (exitUsb s) ++ [call_libusb_init created])%list
  /\ (_usb s = false ->
      lib_calls (initUsb created' (initUsb false s))
      = (lib_calls s ++ [call_libusb_init false; call_libusb_init created'])%list)
  /\ (_jpegCompressor (initJpeg created s) = true ->
      initJpeg created' (initJpeg created s) = initJpeg created s)
  /\ exitJpeg (exitJpeg s) = exitJpeg s
  /\ lib_calls (initJpeg created (exitJpeg s))
     = (lib_calls (exitJpeg s) ++ [call_tjInitCompress created])%list.
Proof.
  unfold initUsb, exitUsb, initJpeg, exitJpeg.
  destruct s as [u j cs]. cbn [_usb _jpegCompressor lib_calls].
  destruct u; destruct j; destruct created; cbn [_usb _jpegCompressor lib_calls];
    repeat split; try reflexivity; try discriminate;
    intros _; now rewrite <- app_assoc.
Qed.

(** X18 on the statics at program start. *)
Lemma static_init_exit_are_idempotent_witness :
  lib_calls (initUsb true (initUsb true statics0)) = [call_libusb_init true]
  /\ lib_calls (exitUsb statics0) = [].
Proof.
  destruct (static_init_exit_are_idempotent statics0 true true) as [H1 _].
  split.
  - rewrite (H1 eq_refl). reflexivity.
  - reflexivity.
Defined.

(** ** The destructor *)

Lemma handshake_worker_exit_flag env d f :
  handshake_worker env d = Exited f -> cancel_flag f = true.
Proof.
  unfold handshake_worker. intros H.
  destruct (flushInputBuffer d (incoming env) (scratch env)) as [[rest buf]|];
    [|discriminate H].
  destruct (handshake_wait _ _ _ _ _ _ _) as [w|]; [|discriminate H].
  injection H as <-. unfold handshake_finish. destruct (cancelled w); reflexivity.
Qed.

Lemma read_worker_exit_flag env d f :
  read_worker env d = Exited f -> cancel_flag f = true.
Proof.
  unfold read_worker. intros H.
  destruct (read_wait _ _ _ _ _ _ _) as [[c cs]|]; [|discriminate H].
  now injection H as <-.
Qed.

(** X19. The destructor goes by the cancel flags alone.  It sleeps the
    two seconds exactly when some worker exists whose flag is not yet
    set; it sets the flag of every such worker and notifies the send
    condition variable exactly when the send worker is one of them.
    Afterwards every existing worker has its flag set, and in every case
    the buffers are freed, the interface released and the handle closed.
    Workers that have returned have set their flags themselves: after a
    receive worker (handshake or read loop) and a send worker that both
    returned, the destructor writes no flag, notifies nobody and does not
    sleep.  A set flag does not mean that the thread has ended: a
    handshake worker whose flush keeps getting reads that return 0 has
    not returned, whatever calls to cancel were made. *)
Theorem destructor_acts_on_cancel_flags {ext : Collaborators}
  (host : endianness) (jpegAllocated : bool) :
  (forall receiveWorker sendWorker,
     let r := destroy receiveWorker sendWorker jpegAllocated in
     (In sleep_2s (snd r)
      <-> uncancelled receiveWorker = true \/ uncancelled sendWorker = true)
     /\ (In notify_send (snd r) <-> uncancelled sendWorker = true)
     /\ fst (fst r)
        = (if uncancelled receiveWorker then Some (mkThread true) else receiveWorker)
     /\ snd (fst r)
        = (if uncancelled sendWorker then Some (mkThread true) else sendWorker)
     /\ uncancelled (fst (fst r)) = false
     /\ uncancelled (snd (fst r)) = false
     /\ exists before,
          snd r = (before ++ free_rgb :: (if jpegAllocated then [free_jpeg] else [])
                          ++ [release_interface; close_handle])%list
          /\ forall a, In a before -> a = notify_send \/ a = sleep_2s)
  /\ (forall env d script d' (fr : finished (option bytes)) (fs : finished unit),
        read_worker env d = Exited fr ->
        send_worker host script d' = Exited fs ->
        destroy (Some (thread_after fr)) (Some (thread_after fs)) jpegAllocated
        = (Some (thread_after fr), Some (thread_after fs),
           free_rgb :: (if jpegAllocated then [free_jpeg] else [])
           ++ [release_interface; close_handle])%list)
  /\ (forall env d script d' (fh : finished bool) (fs : finished unit),
        handshake_worker env d = Exited fh ->
        send_worker host script d' = Exited fs ->
        destroy (Some (thread_after fh)) (Some (thread_after fs)) jpegAllocated
        = (Some (thread_after fh), Some (thread_after fs),
           free_rgb :: (if jpegAllocated then [free_jpeg] else [])
           ++ [release_interface; close_handle])%list)
  /\ (forall env d,
        _inEndpoint d <> 0 ->
        Forall returned_zero (incoming env) ->
        handshake_worker env d = Running).
Proof.
  split; [|split; [|split]].
  - intros rw sw. cbv zeta. unfold destroy, uncancelled, isCancelled, cancel.
    destruct rw as [[[|]]|]; destruct sw as [[[|]]|]; destruct jpegAllocated;
      cbn [_cancel negb orb option_map fst snd app];
      repeat split;
      try (intros; cbn in *; intuition (try discriminate; auto); fail);
      first [ exists []; split; [reflexivity | intros a []]
            | exists [sleep_2s]; split;
              [reflexivity | intros a [<-|[]]; now right]
            | exists [notify_send; sleep_2s]; split;
              [reflexivity | intros a [<-|[<-|[]]]; [now left | now right]] ].
  - intros env d script d' fr fs Hr Hs.
    apply read_worker_exit_flag in Hr. apply send_loop_exit_flag in Hs.
    unfold destroy, thread_after, isCancelled. cbn [_cancel]. rewrite Hr, Hs.
    reflexivity.
  - intros env d script d' fh fs Hh Hs.
    apply handshake_worker_exit_flag in Hh. apply send_loop_exit_flag in Hs.
    unfold destroy, thread_after, isCancelled. cbn [_cancel]. rewrite Hh, Hs.
    reflexivity.
  - intros env d Hin Hzero. unfold handshake_worker, flushInputBuffer.
    destruct (Z.eqb_spec (_inEndpoint d) 0) as [E|_]; [contradiction|].
    cbn [negb]. apply (flush_reads_none (incoming env) (scratch env)) in Hzero.
    now rewrite Hzero.
Qed.

(** X19 on the workers of two finished runs, on a send worker whose flag
    is not set, and on a handshake worker that is still in its flush
    although cancel was called before every load. *)
Lemma destructor_acts_on_cancel_flags_witness :
  snd (destroy (Some (mkThread true)) (Some (mkThread true)) true)
  = [free_rgb; free_jpeg; release_interface; close_handle]
  /\ destroy None (Some (mkThread false)) false
     = (None, Some (mkThread true),
        [notify_send; sleep_2s; free_rgb; release_interface; close_handle])
  /\ handshake_worker
       (mkRecvEnv (fun _ => true) [Bulk.mkResult 0 [1]; Bulk.mkResult 0 []] [9; 9])
       attached
     = Running.
Proof.
  pose proof (destructor_acts_on_cancel_flags (ext := stand_ins) BigEndian true)
    as [_ [Hdone _]].
  pose proof (destructor_acts_on_cancel_flags (ext := stand_ins) BigEndian false)
    as [_ [_ [_ Hflush]]].
  split; [|split].
  - exact (f_equal snd
             (Hdone unplugged streaming [frame_tick; cancel_tick] streaming
                (mkFinished true [Some [1; 2]; None] [] streaming) _ eq_refl eq_refl)).
  - reflexivity.
  - apply Hflush.
    + discriminate.
    + repeat constructor.
Defined.

(** ** The handshake worker: one callback at most *)

(** X20. A handshake worker that has returned has either made no
    callback and left the handshake flag alone, or made exactly one
    callback and stored its argument in the handshake flag; it has written
    nothing to the OUT endpoint and touched no other member. *)
Theorem handshake_worker_calls_back_at_most_once (env : recv_env) (d : MayaUsbDevice)
  (f : finished bool) :
  handshake_worker env d = Exited f ->
  wire f = []
  /\ ((calls f = [] /\ after f = d)
      \/ exists success, calls f = [success] /\ after f = set_handshake success d).
Proof.
  unfold handshake_worker. intros H.
  destruct (flushInputBuffer d (incoming env) (scratch env)) as [[rest buf]|];
    [|discriminate H].
  destruct (handshake_wait _ _ _ _ _ _ _) as [w|]; [|discriminate H].
  injection H as <-. unfold handshake_finish.
  destruct (cancelled w); cbn [wire calls after].
  - split; [reflexivity|]. left. split; reflexivity.
  - split; [reflexivity|]. right. eexists. split; reflexivity.
Qed.

(** X20 on the abandoned and on the answered handshake. *)
Lemma handshake_worker_calls_back_at_most_once_witness :
  (calls (mkFinished (C := bool) true [] [] attached) = []
   /\ after (mkFinished (C := bool) true [] [] attached) = attached)
  \/ exists success,
       calls (mkFinished (C := bool) true [] [] attached) = [success]
       /\ after (mkFinished (C := bool) true [] [] attached) = set_handshake success attached.
Proof.
  exact (proj2 (handshake_worker_calls_back_at_most_once abandoned attached
                  (mkFinished true [] [] attached) eq_refl)).
Defined.

(** ** Construction: an IN endpoint makes the handshake possible *)

Lemma last_with {A} (P : A -> bool) (l : list A) :
  (exists x, In x l /\ P x = true) ->
  exists pre e post,
    l = (pre ++ e :: post)%list /\ P e = true /\ forall x, In x post -> P x = false.
Proof.
  induction l as [|a l IH]; intros [x [Hin Hx]]; [contradiction|].
  destruct (existsb P l) eqn:Hl.
  - apply existsb_exists in Hl. destruct (IH Hl) as [pre [e [post [-> [He Hpost]]]]].
    exists (a :: pre), e, post. repeat split; assumption.
  - assert (forall y, In y l -> P y = false) as Hnone.
    { intros y Hy. destruct (P y) eqn:Hy'; [|reflexivity].
      assert (existsb P l = true) by (apply existsb_exists; eauto). congruence. }
    destruct Hin as [<-|Hin].
    + exists [], a, l. repeat split; assumption.
    + rewrite (Hnone x Hin) in Hx. discriminate Hx.
Qed.

(** X21. When the first alternate setting lists an endpoint with the IN
    direction bit, a constructed device has a non-zero IN address with
    that bit set, and [waitHandshakeAsync] starts a worker on it. *)
Theorem listed_in_endpoint_enables_handshake (bus : Bus) (raw d : MayaUsbDevice)
  (ids : list MayaUsbDeviceId) (env : recv_env) :
  construct bus raw ids = inl d ->
  (exists e, In e (endpoints bus) /\ has_direction LIBUSB_ENDPOINT_IN e = true) ->
  Z.land (_inEndpoint d) 128 = 128
  /\ _inEndpoint d <> 0
  /\ waitHandshakeAsync env d = (true, Some (handshake_worker env d)).
Proof.
  intros Hc Hin.
  destruct (last_with (has_direction LIBUSB_ENDPOINT_IN) (endpoints bus) Hin)
    as [pre [e [post [Heps [He Hpost]]]]].
  rewrite construct_cases in Hc.
  destruct (open_first bus ids) as [id|]; [|discriminate Hc].
  destruct (device_descriptor_status bus <? 0); [discriminate Hc|].
  destruct (manufacturer_status bus <? 0); [discriminate Hc|].
  destruct (product_status bus <? 0); [discriminate Hc|].
  destruct (config_descriptor_status bus <? 0); [discriminate Hc|].
  destruct (claim_status bus <? 0); [discriminate Hc|].
  injection Hc as <-.
  assert (_inEndpoint (enumerate_endpoints (endpoints bus)
            (set_strings (manufacturerString bus) (productString bus)
               (set_id id (set_jpeg [] (_jpegBufferSize raw)
                             (set_sendReady false (set_handshake false raw))))))
          = bEndpointAddress e) as Haddr
    by (rewrite Heps; now apply enumerate_last_in).
  assert (Z.land (bEndpointAddress e) 128 = 128) as Hbit
    by (unfold has_direction in He; now apply Z.eqb_eq in He).
  assert (bEndpointAddress e <> 0) as Hnz
    by (intros E; rewrite E in Hbit; discriminate Hbit).
  split; [now rewrite Haddr|]. split; [now rewrite Haddr|].
  unfold waitHandshakeAsync. rewrite Haddr.
  destruct (Z.eqb_spec (bEndpointAddress e) 0); [contradiction|].
  destruct (enumerate_endpoints_frame (endpoints bus)
              (set_strings (manufacturerString bus) (productString bus)
                 (set_id id (set_jpeg [] (_jpegBufferSize raw)
                               (set_sendReady false (set_handshake false raw))))))
    as [_ [_ [_ [Hh _]]]].
  cbv zeta in Hh. rewrite Hh. reflexivity.
Qed.

(** X21 on the device with two endpoints of each direction. *)
Lemma listed_in_endpoint_enables_handshake_witness :
  waitHandshakeAsync abandoned constructed
  = (true, Some (handshake_worker abandoned constructed)).
Proof.
  apply (listed_in_endpoint_enables_handshake two_of_each stale constructed getAoapIds
           abandoned eq_refl).
  exists (mkEndpoint 0x81 2). split; [now left | reflexivity].
Defined.

(** ** The chunk loop: how many transfers *)

(** Without a short write the loop makes as many transfers as the rest
    of the JPEG needs, all full but the last. *)
Lemma send_chunks_count written jpeg size fuel : forall k i ws,
  size = Z.of_nat (List.length jpeg) ->
  size <= INT_MAX ->
  0 <= i < size ->
  send_chunks fuel written k i jpeg size = Some (ws, false) ->
  Z.of_nat (List.length ws) = (size - i + 16383) / 16384
  /\ Forall full (removelast ws)
  /\ Z.of_nat (List.length (Bulk.buffer (last ws (Bulk.mkWrite [] 0))))
     = size - i - 16384 * (Z.of_nat (List.length ws) - 1).
Proof.
  unfold INT_MAX.
  induction fuel as [|fuel IH]; intros k i ws Hsize Hmax Hi H; [discriminate H|].
  cbn [send_chunks] in H.
  rewrite (size_t_small i) in H by lia.
  destruct (Z.ltb_spec i size) as [_|]; [|lia].
  rewrite (size_t_small (size - i)) in H by lia.
  set (chunk := Z.min BUFFER_LEN (size - i)) in *.
  assert (0 < chunk <= 16384 /\ chunk <= size - i) as Hchunk
    by (unfold chunk, BUFFER_LEN; lia).
  assert (chunk = 16384 \/ chunk = size - i) as Hcases
    by (unfold chunk, BUFFER_LEN; lia).
  clearbody chunk.
  rewrite (int32_small chunk) in H by lia.
  set (w := Bulk.mkWrite (firstn (Z.to_nat chunk) (skipn (Z.to_nat i) jpeg)) (written k))
    in *.
  assert (Z.of_nat (List.length (Bulk.buffer w)) = chunk) as Hlen.
  { unfold w. cbn [Bulk.buffer]. rewrite length_firstn, length_skipn. lia. }
  clearbody w.
  destruct (written k <? chunk); [discriminate H|].
  destruct (send_chunks fuel written (S k) (int32 (i + BUFFER_LEN)) jpeg size)
    as [[ws' error']|] eqn:Hrec; [|discriminate H].
  injection H as <- ->.
  destruct (Z.lt_ge_cases (i + 16384) size) as [Hmore|Hlast].
  - unfold BUFFER_LEN in Hrec. rewrite (int32_small (i + 16384)) in Hrec by lia.
    destruct (IH (S k) (i + 16384) ws' Hsize ltac:(lia) ltac:(lia) Hrec)
      as [Hn [Hfull Hrest]].
    assert (0 < (size - (i + 16384) + 16383) / 16384) as Hpos
      by (Z.div_mod_to_equations; lia).
    destruct ws' as [|w' ws'']; [cbn in Hn; lia|].
    split; [|split].
    + cbn [List.length] in *. Z.div_mod_to_equations. lia.
    + change (removelast (w :: w' :: ws'')) with (w :: removelast (w' :: ws'')).
      constructor; [unfold full, BUFFER_LEN; lia | exact Hfull].
    + change (last (w :: w' :: ws'') (Bulk.mkWrite [] 0))
        with (last (w' :: ws'') (Bulk.mkWrite [] 0)).
      rewrite Hrest. cbn [List.length]. lia.
  - assert (ws' = []) as ->.
    { destruct fuel as [|fuel]; [discriminate Hrec|].
      rewrite send_chunks_exit in Hrec.
      - now injection Hrec as <-.
      - unfold INT_MAX. lia.
      - unfold BUFFER_LEN.
        destruct (Z.lt_ge_cases (i + 16384) (2 ^ 31)).
        + left. rewrite int32_small by lia. lia.
        + right. rewrite int32_wraps by lia. lia. }
    cbn [List.length removelast last]. split; [|split].
    + Z.div_mod_to_equations. lia.
    + constructor.
    + lia.
Qed.

Section FrameShape.
Context {ext : Collaborators}.
Variable host : endianness.

(** The shape of an iteration that reported no error: the header, then
    the transfers the JPEG needs, all full but the last. *)
Lemma send_frame_chunk_shape (written : nat -> Z) (d d' : MayaUsbDevice)
  (ws : list Bulk.write) :
  let jpeg := tjCompress2 (_rgbImageBuffer d) (_jpegBufferWidth d) (_jpegBufferHeight d) in
  let size := Z.of_nat (List.length jpeg) in
  0 < size <= INT_MAX ->
  send_frame host written d = Some (d', ws, false) ->
  exists header chunks,
    ws = header :: chunks
    /\ List.length (Bulk.buffer header) = 4%nat
    /\ Z.of_nat (List.length chunks) = (size + 16383) / 16384
    /\ Forall full (removelast chunks)
    /\ Z.of_nat (List.length (Bulk.buffer (last chunks (Bulk.mkWrite [] 0))))
       = size - 16384 * (Z.of_nat (List.length chunks) - 1).
Proof.
  intros jpeg size Hsize. unfold send_frame. fold jpeg.
  cbn [_jpegBufferSize _jpegBuffer set_jpeg]. fold size.
  unfold INT_MAX in Hsize.
  rewrite (size_t_small size) by lia.
  destruct (size_t (written 0%nat) <? 4); [discriminate|].
  destruct (send_chunks (chunk_fuel size) written 1 0 jpeg size) as [[chunks error]|] eqn:Hc;
    [|discriminate].
  intros H. injection H as _ <- ->.
  destruct (send_chunks_count written jpeg size (chunk_fuel size) 1%nat 0 chunks
              eq_refl ltac:(unfold INT_MAX; lia) ltac:(lia) Hc) as [Hn [Hfull Hlast]].
  rewrite Z.sub_0_r in Hn, Hlast.
  do 2 eexists. split; [reflexivity|].
  split; [destruct host; reflexivity|].
  split; [exact Hn|]. split; [exact Hfull | exact Hlast].
Qed.

(** X22. When every transfer of an iteration stores at least the count
    it was handed, the iteration sends a JPEG of n bytes (n positive and
    fitting an [int], as the compressor reported it) without an error,
    in one transfer for the header
    and then the number of transfers that n bytes need at 16384 bytes
    each, rounded up; every transfer but the last hands over exactly
    16384 bytes, and the last one hands over the remainder. *)
Theorem send_frame_chunk_count (written : nat -> Z) (d : MayaUsbDevice) :
  let jpeg := tjCompress2 (_rgbImageBuffer d) (_jpegBufferWidth d) (_jpegBufferHeight d) in
  let size := Z.of_nat (List.length jpeg) in
  0 < size <= INT_MAX ->
  (forall k, 0 <= written k <= INT_MAX) ->
  all_written written size ->
  exists d' header chunks,
    send_frame host written d = Some (d', header :: chunks, false)
    /\ List.length (Bulk.buffer header) = 4%nat
    /\ Z.of_nat (List.length chunks) = (size + 16383) / 16384
    /\ Forall full (removelast chunks)
    /\ Z.of_nat (List.length (Bulk.buffer (last chunks (Bulk.mkWrite [] 0))))
       = size - 16384 * (Z.of_nat (List.length chunks) - 1).
Proof.
  intros jpeg size Hsize Hwritten Hall.
  destruct (send_frame_outcome host written d (proj2 Hsize) Hwritten)
    as [chunks [error [Hrun [_ [Herr _]]]]].
  fold jpeg size in Hrun, Herr.
  assert (error = false) as -> by (apply Herr; exact Hall).
  destruct (send_frame_chunk_shape written d _ _ Hsize Hrun)
    as [header [chunks' [Hws Hshape]]].
  injection Hws as <- <-.
  exists (set_jpeg jpeg size d), (Bulk.mkWrite (be32 size) (written 0%nat)), chunks.
  split; [exact Hrun | exact Hshape].
Qed.

(** X23. When the compressor reports an empty JPEG and the header write
    goes through, the iteration makes a single transfer of four zero
    bytes and reports no error: on the wire the frame is the termination
    frame, while the loop clears the ready flag and goes on. *)
Theorem empty_frame_looks_like_termination (counts : nat -> Z) (d : MayaUsbDevice) :
  tjCompress2 (_rgbImageBuffer d) (_jpegBufferWidth d) (_jpegBufferHeight d) = [] ->
  4 <= counts 0%nat <= INT_MAX ->
  send_frame host counts d
  = Some (set_jpeg [] 0 d, [termination (counts 0%nat)], false)
  /\ forall rest out,
       _sendReady d = true ->
       send_loop host (mkTick [] counts :: rest) false d out
       = send_loop host rest false (set_sendReady false (set_jpeg [] 0 d))
           (out ++ [termination (counts 0%nat)])%list.
Proof.
  intros Hempty Hw. unfold INT_MAX in Hw.
  assert (send_frame host counts d
          = Some (set_jpeg [] 0 d, [termination (counts 0%nat)], false)) as Hframe.
  { unfold send_frame. rewrite Hempty.
    cbn [List.length _jpegBufferSize _jpegBuffer set_jpeg].
    change (size_t (Z.of_nat 0)) with 0.
    rewrite (size_t_small (counts 0%nat)) by lia.
    destruct (Z.ltb_spec (counts 0%nat) 4); [lia|].
    destruct host; reflexivity. }
  split; [exact Hframe|].
  intros rest out Hready.
  cbn [send_loop before written fold_left fst snd]. rewrite Hready. cbn [orb negb].
  rewrite Hframe. reflexivity.
Qed.

End FrameShape.

(** X22 on the frame of 20000 bytes: a header, a chunk of 16384 bytes
    and a chunk of 3616 bytes. *)
Lemma send_frame_chunk_count_witness :
  exists d' header chunks,
    send_frame (ext := stand_ins) LittleEndian wide_writes wide_staged
    = Some (d', header :: chunks, false)
    /\ List.length chunks = 2%nat
    /\ Forall full (removelast chunks)
    /\ List.length (Bulk.buffer (last chunks (Bulk.mkWrite [] 0))) = 3616%nat.
Proof.
  destruct (send_frame_chunk_count (ext := stand_ins) LittleEndian wide_writes wide_staged)
    as [d' [header [chunks [Hrun [_ [Hn [Hfull Hlast]]]]]]].
  - rewrite wide_frame_size. unfold INT_MAX. lia.
  - exact wide_writes_range.
  - rewrite wide_frame_size. exact wide_writes_complete.
  - rewrite wide_frame_size in Hn, Hlast.
    change ((20000 + 16383) / 16384) with 2 in Hn.
    exists d', header, chunks.
    split; [exact Hrun|]. split; [lia|]. split; [exact Hfull|]. lia.
Defined.

(** X23 on a frame of width zero, for which the stand-in compressor
    gives no bytes. *)
Lemma empty_frame_looks_like_termination_witness :
  send_frame (ext := stand_ins) LittleEndian (fun _ => 4) streaming
  = Some (set_jpeg [] 0 streaming, [Bulk.mkWrite [0; 0; 0; 0] 4], false).
Proof.
  apply (proj1 (empty_frame_looks_like_termination (ext := stand_ins) LittleEndian
                  (fun _ => 4) streaming eq_refl ltac:(unfold INT_MAX; lia))).
Defined.
